(** * FindingHealthyFooodML: the table pipeline, embedded and checked

    The script is one straight-line pandas program over a table
    [food_data].  The embedding keeps its shape:

    - a float cell is an extended real [fnum]: a finite real, one of the
      two infinities, or NaN (which is also how pandas stores a missing
      value).  Rounding of the binary format is not modelled; zero is the
      positive zero;
    - a table row is a finite map from column names to cells, and the
      table is the list of its rows;
    - a column assignment [food_data[c] = ...] inserts [c] into every row;
    - a Python exception (missing column, arithmetic on a string cell) is
      [None]. *)

From Stdlib Require Import Reals Lra Lia ZArith.
From stdpp Require Import gmap strings list fin_maps sorting.

Open Scope R_scope.

(** ** Float cells *)

Inductive fnum : Type :=
| Fin (x : R)
| PInf
| NInf
| NaN.

Definition is_nan (a : fnum) : bool :=
  match a with NaN => true | _ => false end.

Definition fneg (a : fnum) : fnum :=
  match a with
  | Fin x => Fin (- x)
  | PInf => NInf
  | NInf => PInf
  | NaN => NaN
  end.

Definition fadd (a b : fnum) : fnum :=
  match a, b with
  | NaN, _ | _, NaN => NaN
  | Fin x, Fin y => Fin (x + y)
  | PInf, NInf | NInf, PInf => NaN
  | PInf, _ | _, PInf => PInf
  | NInf, _ | _, NInf => NInf
  end.

Definition fsub (a b : fnum) : fnum := fadd a (fneg b).

Definition fabs (a : fnum) : fnum :=
  match a with
  | Fin x => Fin (Rabs x)
  | PInf | NInf => PInf
  | NaN => NaN
  end.

(** Sign of a cell: [Some true] positive, [Some false] negative,
    [None] for zero and NaN. *)
Definition fsign (a : fnum) : option bool :=
  match a with
  | Fin x => if Rlt_dec 0 x then Some true
             else if Rlt_dec x 0 then Some false else None
  | PInf => Some true
  | NInf => Some false
  | NaN => None
  end.

Definition finf (positive : bool) : fnum := if positive then PInf else NInf.

Definition fmul (a b : fnum) : fnum :=
  match a, b with
  | NaN, _ | _, NaN => NaN
  | Fin x, Fin y => Fin (x * y)
  | _, _ =>
      match fsign a, fsign b with
      | Some s, Some t => finf (eqb s t)
      | _, _ => NaN
      end
  end.

(** numpy division: a finite value over zero is an infinity of its sign,
    zero over zero and infinity over infinity are NaN; nothing raises. *)
Definition fdiv (a b : fnum) : fnum :=
  match a, b with
  | NaN, _ | _, NaN => NaN
  | Fin x, Fin y =>
      if Req_dec_T y 0 then
        match fsign a with Some s => finf s | None => NaN end
      else Fin (x / y)
  | Fin _, _ => Fin 0
  | _, Fin y =>
      match fsign a with
      | Some s => finf (eqb s (if Rlt_dec y 0 then false else true))
      | None => NaN
      end
  | _, _ => NaN
  end.

Definition fsqrt (a : fnum) : fnum :=
  match a with
  | Fin x => if Rlt_dec x 0 then NaN else Fin (sqrt x)
  | PInf => PInf
  | _ => NaN
  end.

(** Comparisons are false as soon as one side is NaN. *)
Definition fleb (a b : fnum) : bool :=
  match a, b with
  | NaN, _ | _, NaN => false
  | NInf, _ | _, PInf => true
  | Fin x, Fin y => if Rle_dec x y then true else false
  | _, _ => false
  end.

Definition fltb (a b : fnum) : bool :=
  match a, b with
  | NaN, _ | _, NaN => false
  | Fin x, Fin y => if Rlt_dec x y then true else false
  | PInf, _ | _, NInf => false
  | _, _ => true
  end.

Definition fgtb (a b : fnum) : bool := fltb b a.
Definition fgeb (a b : fnum) : bool := fleb b a.

(** ** The table *)

Inductive cell : Type :=
| Num (x : fnum)
| Str (s : string).

Abbreviation row := (gmap string cell).
Abbreviation frame := (list row).

(** [row[c]] read as a number: a missing column is a KeyError, and
    arithmetic on a string cell a TypeError. *)
Definition get_num (r : row) (c : string) : option fnum :=
  match r !! c with
  | Some (Num x) => Some x
  | _ => None
  end.

(** [food_data[c]] as a numeric series. *)
Definition column (c : string) (df : frame) : option (list fnum) :=
  mapM (fun r => get_num r c) df.

(** [food_data[c] = f(row)], the value computed row by row. *)
Definition assign (c : string) (f : row -> option cell) (df : frame)
  : option frame :=
  mapM (fun r => v ← f r; Some (<[c := v]> r)) df.

(** [food_data[c] = values], the value given as an array: pandas raises
    when the lengths differ. *)
Definition assign_values (c : string) (vals : list cell) (df : frame)
  : option frame :=
  if (length vals =? length df)%nat
  then Some (zip_with (fun r v => <[c := v]> r) df vals)
  else None.

(** A [for] loop whose body may raise. *)
Fixpoint for_each {A B : Type} (body : B -> A -> option B) (l : list A)
    (acc : B) : option B :=
  match l with
  | [] => Some acc
  | x :: t => acc' ← body acc x; for_each body t acc'
  end.

(** ** Cleaner: [describe], the fill values, [drop] and [fillna] *)

Definition dropna (l : list fnum) : list fnum :=
  List.filter (fun a => negb (is_nan a)) l.

Definition fsum (l : list fnum) : fnum := fold_left fadd l (Fin 0).

(** [Series.mean()], NaN skipped; NaN on an empty series. *)
Definition series_mean (l : list fnum) : fnum :=
  let v := dropna l in fdiv (fsum v) (Fin (INR (length v))).

(** [Series.std()], sample standard deviation (one degree of freedom
    removed), NaN skipped; NaN when fewer than two values remain. *)
Definition series_std (l : list fnum) : fnum :=
  let v := dropna l in
  let m := series_mean v in
  let ss := fsum (List.map (fun x => fmul (fsub x m) (fsub x m)) v) in
  fsqrt (fdiv ss (Fin (INR (length v - 1)))).

Definition series_min (l : list fnum) : fnum :=
  match dropna l with
  | [] => NaN
  | x :: t => fold_left (fun m y => if fltb y m then y else m) t x
  end.

Definition series_max (l : list fnum) : fnum :=
  match dropna l with
  | [] => NaN
  | x :: t => fold_left (fun m y => if fltb m y then y else m) t x
  end.

Fixpoint finsert (a : fnum) (l : list fnum) : list fnum :=
  match l with
  | [] => [a]
  | b :: t => if fleb a b then a :: l else b :: finsert a t
  end.

Definition fsort (l : list fnum) : list fnum := fold_right finsert [] l.

(** [Series.quantile(k/4)] with linear interpolation between the two
    closest ranks of the sorted non-null values. *)
Definition quantile4 (k : nat) (l : list fnum) : fnum :=
  let v := fsort (dropna l) in
  match v with
  | [] => NaN
  | _ =>
      let p := ((length v - 1) * k)%nat in
      let lo := List.nth (p / 4) v NaN in
      let hi := List.nth (S (p / 4)) v lo in
      if (p mod 4 =? 0)%nat then lo
      else fadd lo (fmul (fsub hi lo) (Fin (INR (p mod 4) / 4)))
  end.

(** [Series.describe()] of a numeric column: count, mean, std, min,
    25%, 50%, 75%, max. *)
Definition describe (l : list fnum) : list fnum :=
  [ Fin (INR (length (dropna l))); series_mean l; series_std l;
    series_min l; quantile4 1 l; quantile4 2 l; quantile4 3 l;
    series_max l ].

Definition null_cols : list string :=
  ["fiber"; "protein"; "vit_a"; "vit_c"; "calcium"]%string.

(** The fill value of one column, as the script computes it:
    [food_data[col].describe().mean()]. *)
Definition col_avg (l : list fnum) : fnum := series_mean (describe l).

(** The loop that fills the dict [null_cols_avg]. *)
Definition null_cols_avg (df : frame) : option (gmap string fnum) :=
  for_each (fun (acc : gmap string fnum) col =>
              l ← column col df; Some (<[col := col_avg l]> acc))
           null_cols ∅.

(** [food_data.drop(cols, axis=1, inplace=True)]: a column that is not
    there is a KeyError. *)
Definition drop (cols : list string) (df : frame) : option frame :=
  mapM (fun r : row =>
          if forallb (fun c => bool_decide (is_Some (r !! c))) cols
          then Some (fold_right (fun c (m : row) => delete c m) r cols)
          else None) df.

Definition dropped_cols : list string :=
  ["salad"; "cal_fat"; "trans_fat"]%string.

(** [food_data.fillna(value=dict, inplace=True)]: in each column that is
    a key of the dict, a NaN becomes the dict's value. *)
Definition fill_cell (vals : gmap string fnum) (c : string) (v : cell)
  : cell :=
  match v, vals !! c with
  | Num NaN, Some a => Num a
  | _, _ => v
  end.

Definition fillna (vals : gmap string fnum) (df : frame) : frame :=
  List.map (fun r : row => map_imap (fun c v => Some (fill_cell vals c v)) r)
           df.

(** Lines 33 to 43 of the script, in its order: fill values, drop, fill. *)
Definition clean (df : frame) : option frame :=
  avg ← null_cols_avg df;
  df1 ← drop dropped_cols df;
  Some (fillna avg df1).

(** ** Feature deriver *)

(** The dict of recommended densities; Python iterates it in insertion
    order. *)
Definition recommended_density_per_1000cal : list (string * R) :=
  [ ("total_fat", 42.66); ("sat_fat", 14.52); ("sodium", 1747.65);
    ("fiber", 5.95); ("sugar", 5.69); ("protein", 70.30);
    ("calcium", 459.51) ]%string.

Fixpoint dict_get (d : list (string * R)) (k : string) : option R :=
  match d with
  | [] => None
  | (k', v) :: t => if String.eqb k' k then Some v else dict_get t k
  end.

Definition per_1000cal (nutrient : string) : string :=
  (nutrient +:+ "_per_1000cal")%string.

(** One turn of the loop of line 58: the new column from the raw column
    and [calories]. *)
Definition density (nutrient : string) (r : row) : option cell :=
  n ← get_num r nutrient;
  cal ← get_num r "calories";
  Some (Num (fmul (fdiv n cal) (Fin 1000))).

Definition derive_densities (df : frame) : option frame :=
  for_each (fun df' nutrient =>
              assign (per_1000cal nutrient) (density nutrient) df')
           (List.map fst recommended_density_per_1000cal) df.

(** ** Scorer *)

(** One term of the score. *)
Definition score_term (actual : fnum) (rec_value : R) : fnum :=
  fdiv (Fin 1) (fadd (fabs (fsub actual (Fin rec_value))) (Fin 1)).

Definition compute_health_score (r : row) : option fnum :=
  for_each (fun score '(nutrient, rec_value) =>
              actual ← get_num r (per_1000cal nutrient);
              Some (fadd score (score_term actual rec_value)))
           recommended_density_per_1000cal (Fin 0).

Definition add_health_score (df : frame) : option frame :=
  assign "health_score" (fun r => Num <$> compute_health_score r) df.

(** Lines 72 to 74: the two aggregates, then the scaled column. *)
Definition normalize (df : frame) : option frame :=
  scores ← column "health_score" df;
  let min_score := series_min scores in
  let max_score := series_max scores in
  assign "Health Score"
         (fun r => s ← get_num r "health_score";
                   Some (Num (fdiv (fsub s min_score)
                                   (fsub max_score min_score))))
         df.

(** ** Classifier *)

Inductive label : Type := Healthy | Moderate | Unhealthy.

Definition label_str (l : label) : string :=
  match l with
  | Healthy => "Healthy"
  | Moderate => "Moderate"
  | Unhealthy => "Unhealthy"
  end.

Definition classify_health (r : row) : option label :=
  sodium ← get_num r "sodium_per_1000cal";
  fat ← get_num r "total_fat_per_1000cal";
  sugar ← r !! "sugar_per_1000cal";
  sodium_limit ← dict_get recommended_density_per_1000cal "sodium";
  fat_limit ← dict_get recommended_density_per_1000cal "total_fat";
  sugar_limit ← dict_get recommended_density_per_1000cal "sugar";
  Some (if fleb sodium (Fin sodium_limit) && fleb fat (Fin fat_limit)
        then Healthy
        else if (fgtb sodium (Fin sodium_limit) && fleb fat (Fin fat_limit))
                || (fgtb fat (Fin fat_limit)
                    && fleb sodium (Fin sodium_limit))
        then Moderate
        else Unhealthy).

Definition add_health_label (df : frame) : option frame :=
  assign "health_label" (fun r => Str ∘ label_str <$> classify_health r) df.

(** ** Cluster analyzer *)

(** The scikit-learn estimators the script calls.  Their code is not part
    of the repository; a call may raise (NaN or infinite input). *)
Class Estimators : Type := {
  scaler_fit_transform : list (list fnum) -> option (list (list fnum));
  kmeans_fit_predict : list (list fnum) -> option (list Z);
  dbscan_fit_predict : list (list fnum) -> option (list Z);
  pca_fit_transform : list (list fnum) -> option (list (fnum * fnum))
}.

Definition features : list string :=
  ["health_score"; "sodium_per_1000cal"; "total_fat_per_1000cal";
   "sugar_per_1000cal"]%string.

(** [food_data[features].values] *)
Definition feature_matrix (df : frame) : option (list (list fnum)) :=
  mapM (fun r => mapM (get_num r) features) df.

Definition int_cell (z : Z) : cell := Num (Fin (IZR z)).

Section Clustering.
Context `{Estimators}.

Definition add_kmeans (X_scaled : list (list fnum)) (df : frame)
  : option frame :=
  ks ← kmeans_fit_predict X_scaled;
  assign_values "kmeans_cluster" (int_cell <$> ks) df.

Definition add_dbscan (X_scaled : list (list fnum)) (df : frame)
  : option frame :=
  ks ← dbscan_fit_predict X_scaled;
  assign_values "dbscan_cluster" (int_cell <$> ks) df.

Definition add_pca (X_scaled : list (list fnum)) (df : frame)
  : option frame :=
  X_pca ← pca_fit_transform X_scaled;
  df1 ← assign_values "pca1" ((fun p => Num (fst p)) <$> X_pca) df;
  assign_values "pca2" ((fun p => Num (snd p)) <$> X_pca) df1.

(** Lines 95 to 116: the features are read and scaled once. *)
Definition cluster_analyzer (df : frame) : option frame :=
  X ← feature_matrix df;
  X_scaled ← scaler_fit_transform X;
  df1 ← add_kmeans X_scaled df;
  df2 ← add_dbscan X_scaled df1;
  add_pca X_scaled df2.

(** The column-adding stages that follow the cleaner. *)
Inductive stage : Type :=
| Derive | Score | Normalize | Classify
| KMeansStage (X_scaled : list (list fnum))
| DBSCANStage (X_scaled : list (list fnum))
| PCAStage (X_scaled : list (list fnum)).

Definition run_stage (s : stage) : frame -> option frame :=
  match s with
  | Derive => derive_densities
  | Score => add_health_score
  | Normalize => normalize
  | Classify => add_health_label
  | KMeansStage X => add_kmeans X
  | DBSCANStage X => add_dbscan X
  | PCAStage X => add_pca X
  end.

(** Lines 57 to 116 as one run. *)
Definition enrich (df : frame) : option frame :=
  df1 ← derive_densities df;
  df2 ← add_health_score df1;
  df3 ← normalize df2;
  df4 ← add_health_label df3;
  cluster_analyzer df4.
End Clustering.

(** The columns a stage assigns. *)
Definition writes (s : stage) : list string :=
  match s with
  | Derive => per_1000cal <$> (fst <$> recommended_density_per_1000cal)
  | Score => ["health_score"]
  | Normalize => ["Health Score"]
  | Classify => ["health_label"]
  | KMeansStage _ => ["kmeans_cluster"]
  | DBSCANStage _ => ["dbscan_cluster"]
  | PCAStage _ => ["pca1"; "pca2"]
  end%string.

(** The raw nutrient columns of the data model. *)
Definition raw_nutrient_cols : list string :=
  ["calories"; "total_fat"; "sat_fat"; "sodium"; "fiber"; "sugar";
   "protein"; "calcium"; "vit_a"; "vit_c"]%string.

(** ** Reporter *)

(** numpy's [rint]: the nearest integer, a tie going to the even one. *)
Definition rint (x : R) : Z :=
  let f := Zfloor x in
  let d := x - IZR f in
  if Rlt_dec d (1 / 2) then f
  else if Rlt_dec (1 / 2) d then (f + 1)%Z
  else if Z.even f then f else (f + 1)%Z.

(** [round(5)] of a float. *)
Definition round5 (a : fnum) : fnum :=
  match a with
  | Fin x => Fin (IZR (rint (x * 100000)) / 100000)
  | _ => a
  end.

Definition round_cell (v : cell) : cell :=
  match v with
  | Num a => Num (round5 a)
  | Str _ => v
  end.

(** [food_data = food_data.round(5)] *)
Definition round_frame (df : frame) : frame :=
  List.map (fun r : row => round_cell <$> r) df.

Definition columns_to_show : list string :=
  ["item"; "Health Score"; "calories"; "total_fat"; "sat_fat"; "sodium";
   "fiber"; "sugar"; "protein"; "calcium"]%string.

(** [food_data[food_data['health_label'] == label]] *)
Definition where_label (l : label) (df : frame) : option frame :=
  marks ← mapM (fun r : row =>
                  v ← r !! "health_label";
                  Some (r, match v with
                           | Str s => String.eqb s (label_str l)
                           | Num _ => false
                           end)) df;
  Some (fst <$> List.filter snd marks).

(** [df[columns_to_show]]: the listed columns, in the listed order. *)
Definition select (cols : list string) (r : row)
  : option (list (string * cell)) :=
  mapM (fun c => v ← r !! c; Some (c, v)) cols.

Fixpoint assoc_num (r : list (string * cell)) (c : string) : option fnum :=
  match r with
  | [] => None
  | (c', v) :: t =>
      if String.eqb c' c
      then match v with Num x => Some x | Str _ => None end
      else assoc_num t c
  end.

(** Whether a row with key [ka] stays in front of a later row with key
    [kb] in a descending sort that puts NaN last. *)
Definition stays_before (ka kb : fnum) : bool :=
  fgeb ka kb || is_nan kb.

Fixpoint insert_desc {A : Type} (a : fnum * A) (l : list (fnum * A))
  : list (fnum * A) :=
  match l with
  | [] => [a]
  | b :: t => if stays_before (fst a) (fst b) then a :: l
              else b :: insert_desc a t
  end.

(** [sort_values(by=c, ascending=False)], modelled as a stable insertion
    sort on the key column. *)
Definition sort_values_desc (c : string) (df : list (list (string * cell)))
  : option (list (list (string * cell))) :=
  keyed ← mapM (fun r => k ← assoc_num r c; Some (k, r)) df;
  Some (snd <$> fold_right insert_desc [] keyed).

(** Lines 156 to 161 for one label: round the whole table, then filter,
    project and sort. *)
Definition report (l : label) (df : frame)
  : option (list (list (string * cell))) :=
  rows ← where_label l (round_frame df);
  shown ← mapM (select columns_to_show) rows;
  sort_values_desc "Health Score" shown.

(** The script from line 33 to line 116. *)
Definition pipeline `{Estimators} (df : frame) : option frame :=
  df1 ← clean df; enrich df1.

(** ** Null report (lines 25 to 30 and 44) *)

(** [isnull()] of a cell. *)
Definition isnull (v : cell) : bool :=
  match v with Num NaN => true | _ => false end.

(** [food_data.isnull().sum()] at one column. *)
Definition null_count (c : string) (df : frame) : option nat :=
  cells ← mapM (fun r : row => r !! c) df;
  Some (length (List.filter isnull cells)).

(** [(int(n) / food_data.shape[0]) * 100]: Python's division of two ints
    raises ZeroDivisionError on a table without rows. *)
Definition null_percent (n rows : nat) : option R :=
  if (rows =? 0)%nat then None else Some (INR n / INR rows * 100).

(** * Vocabulary of the properties and sample rows *)

(** The rule of [classify_health] on the two values it compares. *)
Definition rule (sodium fat : fnum) : label :=
  if fleb sodium (Fin 1747.65) && fleb fat (Fin 42.66) then Healthy
  else if (fgtb sodium (Fin 1747.65) && fleb fat (Fin 42.66))
          || (fgtb fat (Fin 42.66) && fleb sodium (Fin 1747.65))
  then Moderate
  else Unhealthy.

(** The absolute deviation [abs(actual - rec_value)]. *)
Definition deviation (actual : fnum) (rec_value : R) : fnum :=
  fabs (fsub actual (Fin rec_value)).

(** The densities of a row in the order of the dict. *)
Definition densities (r : row) : option (list fnum) :=
  mapM (fun '(nutrient, _) => get_num r (per_1000cal nutrient))
       recommended_density_per_1000cal.

(** The terms of the score of a list of densities. *)
Definition score_terms (acts : list fnum) : list fnum :=
  zip_with score_term acts (snd <$> recommended_density_per_1000cal).

(** The loop of line 58 on one row. *)
Definition derive_row (names : list string) (r : row) : option row :=
  for_each (fun r' nutrient =>
              v ← density nutrient r'; Some (<[per_1000cal nutrient := v]> r'))
           names r.

Definition nutrients : list string :=
  fst <$> recommended_density_per_1000cal.

(** What the deriver needs of a row: numbers in [calories] and in the
    seven raw nutrient columns. *)
Definition derivable (r : row) : Prop :=
  forall c, c ∈ "calories"%string :: nutrients -> is_Some (get_num r c).

(** A cheeseburger-like row of the raw table. *)
Definition burger : row :=
  list_to_map
    [ ("item", Str "Cheeseburger"); ("calories", Num (Fin 500));
      ("total_fat", Num (Fin 25)); ("sat_fat", Num (Fin 10));
      ("sodium", Num (Fin 1000)); ("fiber", Num (Fin 3));
      ("sugar", Num (Fin 7)); ("protein", Num (Fin 30));
      ("calcium", Num (Fin 200)); ("vit_a", Num (Fin 10));
      ("vit_c", Num (Fin 2)) ]%string.

Definition is_fin (a : fnum) : Prop := exists v, a = Fin v.

(** The densities of a row that matches every recommendation. *)
Definition perfect_densities : list fnum :=
  Fin <$> (snd <$> recommended_density_per_1000cal).

(** A score is a number or NaN, never an infinity. *)
Definition score_like (s : fnum) : Prop := s = NaN \/ is_fin s.

(** The value the script stores in ['Health Score']. *)
Definition scaled (s lo hi : fnum) : fnum := fdiv (fsub s lo) (fsub hi lo).

Definition sample_column : list fnum := [Fin 10; NaN; Fin 30].

(** A raw table of three items whose [fiber] column is [10, null, 30]. *)
Definition raw_item (name : string) (fiber : fnum) : row :=
  list_to_map
    [ ("item", Str name); ("calories", Num (Fin 500));
      ("cal_fat", Num (Fin 200)); ("total_fat", Num (Fin 25));
      ("sat_fat", Num (Fin 10)); ("trans_fat", Num (Fin 1));
      ("sodium", Num (Fin 1000)); ("fiber", Num fiber);
      ("sugar", Num (Fin 7)); ("protein", Num (Fin 30));
      ("vit_a", Num (Fin 10)); ("vit_c", Num (Fin 2));
      ("calcium", Num (Fin 200)); ("salad", Str "Other") ]%string.

Definition raw_table : frame :=
  [raw_item "Burger" (Fin 10); raw_item "Fries" NaN;
   raw_item "Wrap" (Fin 30)].

(** [r'] is [r] with cells assigned in the columns [W] only: every other
    column is unchanged and no column is lost. *)
Definition extends (W : list string) (r r' : row) : Prop :=
  (forall c, c ∉ W -> r' !! c = r !! c)
  /\ (forall c, is_Some (r !! c) -> is_Some (r' !! c)).

(** The stages in the order of the script. *)
Definition stage_order (X_scaled : list (list fnum)) : list stage :=
  [Derive; Score; Normalize; Classify; KMeansStage X_scaled;
   DBSCANStage X_scaled; PCAStage X_scaled].

(** Every column a stage of the script assigns. *)
Definition derived_cols : list string :=
  concat (writes <$> stage_order []).

(** A row of the final table with a given name and normalized score. *)
Definition meal (name : string) (score : R) : row :=
  list_to_map
    [ ("item", Str name); ("Health Score", Num (Fin score));
      ("health_label", Str "Healthy"); ("calories", Num (Fin 500));
      ("total_fat", Num (Fin 20)); ("sat_fat", Num (Fin 5));
      ("sodium", Num (Fin 800)); ("fiber", Num (Fin 3));
      ("sugar", Num (Fin 4)); ("protein", Num (Fin 30));
      ("calcium", Num (Fin 200)) ]%string.

(** The printed line of a row of [meal] whose score rounds to [key]. *)
Definition printed (name : string) (key : fnum) : list (string * cell) :=
  [ ("item", Str name); ("Health Score", Num key);
    ("calories", Num (round5 (Fin 500)));
    ("total_fat", Num (round5 (Fin 20))); ("sat_fat", Num (round5 (Fin 5)));
    ("sodium", Num (round5 (Fin 800))); ("fiber", Num (round5 (Fin 3)));
    ("sugar", Num (round5 (Fin 4))); ("protein", Num (round5 (Fin 30)));
    ("calcium", Num (round5 (Fin 200))) ]%string.

(** A row that holds the seven density columns with the given values. *)
Definition density_row (acts : list fnum) : row :=
  list_to_map (zip (per_1000cal <$> nutrients) (Num <$> acts)).

Definition perfect_row : row := density_row perfect_densities.

(** Sodium 2000 and fat 40 per 1000 kcal. *)
Definition salty_row : row :=
  density_row [Fin 40; Fin 10; Fin 2000; Fin 5; Fin 3; Fin 60; Fin 400].

(** The same densities with other sugar, protein and calcium, and a
    name. *)
Definition salty_sweet_row : row :=
  <["item"%string := Str "Milkshake"]>
    (density_row [Fin 40; Fin 10; Fin 2000; Fin 5; Fin 90; Fin 1; Fin 2]).

(** Sodium above its limit, total fat missing. *)
Definition salty_no_fat_row : row :=
  density_row [NaN; Fin 10; Fin 2000; Fin 5; Fin 3; Fin 60; Fin 400].

(** An item without calories: every raw value is zero. *)
Definition water : row :=
  list_to_map
    [ ("item", Str "Water"); ("calories", Num (Fin 0));
      ("total_fat", Num (Fin 0)); ("sat_fat", Num (Fin 0));
      ("sodium", Num (Fin 0)); ("fiber", Num (Fin 0));
      ("sugar", Num (Fin 0)); ("protein", Num (Fin 0));
      ("calcium", Num (Fin 0)); ("vit_a", Num (Fin 0));
      ("vit_c", Num (Fin 0)) ]%string.

(** Three scored rows, the last one with a NaN score. *)
Definition scored_rows : frame :=
  [ {[ "health_score"%string := Num (Fin 7) ]};
    {[ "health_score"%string := Num (Fin 6) ]};
    {[ "health_score"%string := Num NaN ]} ].

(** Two rows that differ in the sodium density only, with no sugar
    density. *)
Definition no_sugar_row (sodium : R) : row :=
  density_row [Fin 42.66; Fin 14.52; Fin sodium; Fin 5.95; NaN;
               Fin 70.30; Fin 459.51].

(** Estimators that put every row in cluster 0, mark no row as noise and
    project on the first two features. *)
Definition trivial_estimators : Estimators :=
  {| scaler_fit_transform := Some;
     kmeans_fit_predict := fun X => Some ((fun _ => 0%Z) <$> X);
     dbscan_fit_predict := fun X => Some ((fun _ => 0%Z) <$> X);
     pca_fit_transform :=
       fun X => Some ((fun x => (List.nth 0 x NaN, List.nth 1 x NaN)) <$> X)
  |}.

(** All densities as recommended except sodium, one unit above. *)
Definition near_perfect_row : row :=
  density_row [Fin 42.66; Fin 14.52; Fin 1748.65; Fin 5.95; Fin 5.69;
               Fin 70.30; Fin 459.51].

(** A row that holds a number in each of the seven density columns. *)
Definition has_densities (r : row) : Prop :=
  forall n, n ∈ nutrients -> is_Some (get_num r (per_1000cal n)).

(** An infinite density. *)
Definition is_inf (a : fnum) : Prop := a = PInf \/ a = NInf.

(** Whether a row carries the label [l] in [health_label]. *)
Definition has_label (l : label) (r : row) : bool :=
  match r !! "health_label" with
  | Some (Str s) => String.eqb s (label_str l)
  | _ => false
  end.

(** The order of the report: the earlier key is at least the later one,
    or the later one is NaN. *)
Definition report_order (ka kb : fnum) : Prop := stays_before ka kb = true.

(** A row that holds every column of [W]. *)
Definition present (W : list string) (r : row) : Prop :=
  forall c, c ∈ W -> is_Some (r !! c).

(** A row the report can print: it holds the ten columns to show, a
    number in ['Health Score'] and one of the three labels. *)
Definition printable (r : row) : Prop :=
  present columns_to_show r
  /\ is_Some (get_num r "Health Score")
  /\ exists l, r !! "health_label" = Some (Str (label_str l)).

(** * Properties *)

Ltac in_list :=
  repeat first [apply list_elem_of_here | apply list_elem_of_further].

(** ** Comparisons of float cells *)

Lemma fleb_Fin (x y : R) : fleb (Fin x) (Fin y) = true <-> x <= y.
Proof. simpl. destruct (Rle_dec x y); split; intros; try done. Qed.

Lemma fltb_Fin (x y : R) : fltb (Fin x) (Fin y) = true <-> x < y.
Proof. simpl. destruct (Rlt_dec x y); split; intros; try done. Qed.

Lemma fleb_Fin_true (x y : R) : x <= y -> fleb (Fin x) (Fin y) = true.
Proof. apply fleb_Fin. Qed.

Lemma fleb_Fin_false (x y : R) : y < x -> fleb (Fin x) (Fin y) = false.
Proof.
  intros Hlt. destruct (fleb (Fin x) (Fin y)) eqn:E; [|done].
  apply fleb_Fin in E. lra.
Qed.

Lemma fltb_Fin_true (x y : R) : x < y -> fltb (Fin x) (Fin y) = true.
Proof. apply fltb_Fin. Qed.

Lemma fltb_Fin_false (x y : R) : y <= x -> fltb (Fin x) (Fin y) = false.
Proof.
  intros Hle. destruct (fltb (Fin x) (Fin y)) eqn:E; [|done].
  apply fltb_Fin in E. lra.
Qed.

(** On cells that are not NaN the two comparisons are complementary. *)
Lemma fgtb_not_fleb (a b : fnum) :
  is_nan a = false -> is_nan b = false -> fgtb a b = negb (fleb a b).
Proof.
  unfold fgtb. destruct a as [x| | |], b as [y| | |]; simpl; try done.
  intros _ _. destruct (Rlt_dec y x), (Rle_dec x y); simpl; try done; lra.
Qed.

Lemma fleb_nan_l (b : fnum) : fleb NaN b = false.
Proof. done. Qed.

Lemma fleb_nan_r (a : fnum) : fleb a NaN = false.
Proof. by destruct a. Qed.

Lemma fltb_nan_r (a : fnum) : fltb a NaN = false.
Proof. by destruct a. Qed.

(** ** Classifier *)

Lemma classify_health_eq (r : row) (sodium fat : fnum) :
  get_num r "sodium_per_1000cal" = Some sodium ->
  get_num r "total_fat_per_1000cal" = Some fat ->
  is_Some (r !! "sugar_per_1000cal") ->
  classify_health r = Some (rule sodium fat).
Proof.
  intros Hs Hf [g Hg]. unfold classify_health.
  rewrite Hs, Hf, Hg. reflexivity.
Qed.

(** ** Scorer *)

Lemma score_term_cases (actual : fnum) (rec_value : R) :
  score_term actual rec_value =
  match actual with
  | Fin x => Fin (1 / (Rabs (x - rec_value) + 1))
  | PInf | NInf => Fin 0
  | NaN => NaN
  end.
Proof.
  destruct actual as [x| | |]; try reflexivity.
  unfold score_term. simpl.
  destruct (Req_dec_T _ 0) as [E|_]; [|reflexivity].
  pose proof (Rabs_pos (x + - rec_value)). lra.
Qed.

Lemma score_term_range (x rec_value : R) :
  0 < 1 / (Rabs (x - rec_value) + 1) <= 1.
Proof.
  pose proof (Rabs_pos (x - rec_value)) as Hp.
  assert (0 < / (Rabs (x - rec_value) + 1)) as Hi
    by (apply Rinv_0_lt_compat; lra).
  assert (/ (Rabs (x - rec_value) + 1) * (Rabs (x - rec_value) + 1) = 1)
    as Hm by (apply Rinv_l; lra).
  unfold Rdiv. nra.
Qed.

(** A term that is a number lies in [0, 1]. *)
Lemma score_term_bounds (actual : fnum) (rec_value : R) :
  is_nan actual = false ->
  exists t, score_term actual rec_value = Fin t /\ 0 <= t <= 1.
Proof.
  intros Hn. rewrite score_term_cases.
  destruct actual as [x| | |]; try done.
  - eexists; split; [reflexivity|].
    pose proof (score_term_range x rec_value). lra.
  - exists 0. split; [done|lra].
  - exists 0. split; [done|lra].
Qed.

(** A term is 1 exactly at the recommended density. *)
Lemma score_term_one_iff (actual : fnum) (rec_value : R) :
  score_term actual rec_value = Fin 1 <-> actual = Fin rec_value.
Proof.
  rewrite score_term_cases. split.
  - destruct actual as [x| | |]; intros E; try discriminate.
    + injection E as E. f_equal.
      assert (Rabs (x - rec_value) = 0) as Hz.
      { pose proof (Rabs_pos (x - rec_value)) as Hp.
        assert (Rabs (x - rec_value) + 1 = 1) as H1; [|lra].
        apply (Rmult_eq_compat_r (Rabs (x - rec_value) + 1)) in E.
        unfold Rdiv in E. rewrite Rmult_assoc, Rinv_l in E; lra. }
      destruct (Req_dec (x - rec_value) 0) as [E0|E0]; [lra|].
      apply Rabs_no_R0 in E0. done.
    + injection E as E. lra.
    + injection E as E. lra.
  - intros ->. f_equal.
    replace (rec_value - rec_value) with 0 by lra.
    rewrite Rabs_R0. lra.
Qed.

Lemma score_loop_sum (r : row) (d : list (string * R)) (acc : fnum) :
  for_each (fun score '(nutrient, rec_value) =>
              actual ← get_num r (per_1000cal nutrient);
              Some (fadd score (score_term actual rec_value))) d acc
  = acts ← mapM (fun '(nutrient, _) => get_num r (per_1000cal nutrient)) d;
    Some (fold_left fadd (zip_with score_term acts (snd <$> d)) acc).
Proof.
  revert acc. induction d as [|[n rv] d IH]; intros acc; [reflexivity|].
  cbn [for_each mapM]. 
  destruct (get_num r (per_1000cal n)) as [a|]; [|reflexivity].
  cbn. rewrite IH.
  destruct (mapM _ d); reflexivity.
Qed.

(** The loop of [compute_health_score] is the sum of the seven terms. *)
Lemma compute_health_score_sum (r : row) :
  compute_health_score r = acts ← densities r; Some (fsum (score_terms acts)).
Proof. apply score_loop_sum. Qed.

Lemma fold_fadd_bounds (ts : list fnum) (x : R) :
  Forall (fun t => exists v, t = Fin v /\ 0 <= v <= 1) ts ->
  exists s, fold_left fadd ts (Fin x) = Fin s
            /\ x <= s <= x + INR (length ts).
Proof.
  intros Hts. revert x. induction Hts as [|t ts (v & -> & Hv) _ IH]; intros x.
  - exists x. simpl. split; [done|lra].
  - destruct (IH (x + v)) as (s & Hs & Hb).
    exists s. split; [exact Hs|].
    change (length (Fin v :: ts)) with (S (length ts)).
    rewrite S_INR. lra.
Qed.

Lemma fold_fadd_nan (ts : list fnum) : fold_left fadd ts NaN = NaN.
Proof. induction ts as [|t ts IH]; [done|]. simpl. exact IH. Qed.

Lemma densities_length (r : row) (acts : list fnum) :
  densities r = Some acts -> length acts = 7%nat.
Proof.
  intros Hd. apply length_mapM in Hd. rewrite <- Hd. reflexivity.
Qed.

(** ** Column assignments, row by row *)

Lemma assign_rows (c : string) (f : row -> option cell) (df df' : frame) :
  assign c f df = Some df' <->
  Forall2 (fun r r' : row => exists v, f r = Some v /\ r' = <[c := v]> r)
          df df'.
Proof.
  unfold assign. rewrite mapM_Some. split; intros HF.
  - eapply Forall2_impl; [exact HF|]. intros r r' Hr. simpl in Hr.
    destruct (f r) as [v|]; [|done]. exists v. split; [done|].
    simpl in Hr. congruence.
  - eapply Forall2_impl; [exact HF|]. intros r r' (v & Hv & ->).
    by rewrite Hv.
Qed.

Lemma assign_total (c : string) (f : row -> option cell) (df : frame) :
  Forall (fun r => is_Some (f r)) df -> is_Some (assign c f df).
Proof.
  intros HF. apply mapM_is_Some. eapply Forall_impl; [exact HF|].
  intros r [v Hv]. simpl. by rewrite Hv.
Qed.

Lemma mapM_bind_mapM {A B C : Type} (f : A -> option B) (g : B -> option C)
    (l : list A) :
  mapM f l ≫= mapM g = mapM (fun x => f x ≫= g) l.
Proof.
  induction l as [|x l IH]; [reflexivity|].
  cbn [mapM]. destruct (f x) as [y|]; simpl.
  - rewrite <- IH. destruct (mapM f l) as [k|]; simpl; [done|].
    by destruct (g y).
  - done.
Qed.

Lemma mapM_cons {A B : Type} (f : A -> option B) (x : A) (l : list A) :
  mapM f (x :: l) = y ← f x; k ← mapM f l; Some (y :: k).
Proof. reflexivity. Qed.

Lemma mapM_Some_id {A : Type} (l : list A) : mapM Some l = Some l.
Proof. apply mapM_Some. by apply Forall_Forall2_diag, Forall_true. Qed.

(** A loop of row-wise assignments is one row-wise pass of loops. *)
Lemma for_each_rows {A : Type} (g : A -> row -> option row) (xs : list A)
    (df : frame) :
  for_each (fun df' x => mapM (g x) df') xs df
  = mapM (fun r => for_each (fun r' x => g x r') xs r) df.
Proof.
  revert df. induction xs as [|x xs IH]; intros df.
  - simpl. by rewrite mapM_Some_id.
  - cbn [for_each]. rewrite <- mapM_bind_mapM.
    destruct (mapM (g x) df) as [df1|]; simpl; [apply IH|done].
Qed.

(** ** Feature deriver *)

Lemma derive_densities_rows (df : frame) :
  derive_densities df
  = mapM (derive_row (fst <$> recommended_density_per_1000cal)) df.
Proof. apply (for_each_rows (fun n r => v ← density n r; Some (<[per_1000cal n := v]> r))). Qed.

Lemma get_num_insert_ne (r : row) (c c' : string) (v : cell) :
  c <> c' -> get_num (<[c := v]> r) c' = get_num r c'.
Proof. intros Hne. unfold get_num. by rewrite lookup_insert_ne. Qed.

Lemma density_insert_ne (r : row) (c n : string) (v : cell) :
  c <> n -> c <> "calories"%string ->
  density n (<[c := v]> r) = density n r.
Proof.
  intros H1 H2. unfold density. by rewrite !get_num_insert_ne.
Qed.

Section DeriveRow.
Variable names : list string.
Hypothesis fresh :
  Forall (fun n => per_1000cal n ∉ ("calories"%string :: names)) names.

Lemma derive_row_spec_aux (ns : list string) (r r' : row) :
  ns ⊆ names -> NoDup (per_1000cal <$> ns) ->
  derive_row ns r = Some r' ->
  (forall c, c ∉ per_1000cal <$> ns -> r' !! c = r !! c)
  /\ (forall n, n ∈ ns ->
        exists v, density n r = Some v /\ r' !! per_1000cal n = Some v).
Proof.
  revert r. induction ns as [|n ns IH]; intros r Hsub Hnd Hrun.
  - injection Hrun as <-. split; [done|]. intros n Hn. by inversion Hn.
  - unfold derive_row in Hrun. cbn [for_each] in Hrun.
    destruct (density n r) as [v|] eqn:Hv; [|done]. simpl in Hrun.
    rewrite fmap_cons in Hnd. apply NoDup_cons in Hnd as [Hn Hnd].
    assert (n ∈ names) as Hin by (apply Hsub; left).
    assert (ns ⊆ names) as Hsub' by (intros x Hx; apply Hsub; by right).
    destruct (IH _ Hsub' Hnd Hrun) as [Hframe Hval].
    rewrite Forall_forall in fresh.
    split.
    + intros c Hc. rewrite fmap_cons in Hc.
      apply not_elem_of_cons in Hc as [Hc1 Hc2].
      rewrite (Hframe c Hc2). by rewrite lookup_insert_ne.
    + intros m Hm. apply elem_of_cons in Hm as [->|Hm].
      * exists v. split; [done|].
        rewrite (Hframe _ Hn). by rewrite lookup_insert_eq.
      * destruct (Hval m Hm) as (w & Hw & Hl).
        exists w. split; [|done].
        rewrite <- Hw. symmetry. apply density_insert_ne.
        -- intros E. apply (fresh n Hin). right. rewrite E. by apply Hsub'.
        -- intros E. apply (fresh n Hin). rewrite E. left.
  Qed.

Lemma derive_row_total_aux (ns : list string) (r : row) :
  ns ⊆ names ->
  (forall c, c ∈ "calories"%string :: ns -> is_Some (get_num r c)) ->
  is_Some (derive_row ns r).
Proof.
  revert r. induction ns as [|n ns IH]; intros r Hsub Hr; [by eexists|].
  unfold derive_row. cbn [for_each].
  destruct (Hr n) as [x Hx]; [right; left|].
  destruct (Hr "calories"%string) as [cal Hcal]; [left|].
  assert (density n r = Some (Num (fmul (fdiv x cal) (Fin 1000)))) as ->
    by (unfold density; by rewrite Hx, Hcal).
  simpl. apply IH.
  - intros y Hy. apply Hsub. by right.
  - rewrite Forall_forall in fresh.
    assert (n ∈ names) as Hin by (apply Hsub; left).
    intros c Hc. rewrite get_num_insert_ne.
    + apply Hr. apply elem_of_cons in Hc as [->|Hc]; [left|right; by right].
    + intros E. apply (fresh n Hin). rewrite E.
      apply elem_of_cons in Hc as [->|Hc]; [left|right].
      apply Hsub. by right.
Qed.
End DeriveRow.

Lemma nutrients_fresh :
  Forall (fun n => per_1000cal n ∉ ("calories"%string :: nutrients)) nutrients.
Proof.
  apply (bool_decide_unpack _). by vm_compute.
Qed.

Lemma nutrients_NoDup : NoDup (per_1000cal <$> nutrients).
Proof. apply (bool_decide_unpack _). by vm_compute. Qed.

Lemma derive_densities_spec (df df' : frame) :
  derive_densities df = Some df' ->
  Forall2 (fun r r' : row =>
             (forall c, c ∉ per_1000cal <$> nutrients -> r' !! c = r !! c)
             /\ (forall n, n ∈ nutrients ->
                   exists v, density n r = Some v
                             /\ r' !! per_1000cal n = Some v))
          df df'.
Proof.
  rewrite derive_densities_rows. intros Hm. apply mapM_Some in Hm.
  eapply Forall2_impl; [exact Hm|]. intros r r' Hr.
  by apply (derive_row_spec_aux nutrients nutrients_fresh nutrients r r'
              (reflexivity _) nutrients_NoDup).
Qed.

Lemma derive_densities_total (df : frame) :
  Forall derivable df -> is_Some (derive_densities df).
Proof.
  intros HF. rewrite derive_densities_rows. apply mapM_is_Some.
  eapply Forall_impl; [exact HF|]. intros r Hr.
  by apply (derive_row_total_aux nutrients nutrients_fresh nutrients r
              (reflexivity _)).
Qed.

Lemma density_value (n : string) (r : row) (v : cell) :
  density n r = Some v ->
  exists raw cal, get_num r n = Some raw
                  /\ get_num r "calories" = Some cal
                  /\ v = Num (fmul (fdiv raw cal) (Fin 1000)).
Proof.
  unfold density. intros Hv.
  destruct (get_num r n) as [raw|]; [|done].
  destruct (get_num r "calories") as [cal|]; [|done].
  exists raw, cal. simpl in Hv. by injection Hv as <-.
Qed.

(** C5.  On a table whose rows hold numbers in [calories] and in the
    seven raw nutrient columns, the deriver returns a table in which, row
    by row and for each of the seven nutrients, the column
    [<nutrient>_per_1000cal] is the row's raw value divided by its
    calories and multiplied by 1000. *)
Theorem derived_density_is_raw_over_calories (df : frame) :
  Forall derivable df ->
  exists df', derive_densities df = Some df'
    /\ Forall2 (fun r r' : row =>
                  forall n, n ∈ nutrients ->
                    exists raw cal,
                      get_num r n = Some raw
                      /\ get_num r "calories" = Some cal
                      /\ r' !! per_1000cal n
                         = Some (Num (fmul (fdiv raw cal) (Fin 1000))))
               df df'.
Proof.
  intros HF. destruct (derive_densities_total df HF) as [df' Hd].
  exists df'. split; [done|].
  eapply Forall2_impl; [exact (derive_densities_spec _ _ Hd)|].
  intros r r' [_ Hval] n Hn.
  destruct (Hval n Hn) as (v & Hv & Hl).
  destruct (density_value _ _ _ Hv) as (raw & cal & H1 & H2 & ->).
  by exists raw, cal.
Qed.

Lemma burger_derivable : derivable burger.
Proof.
  intros c Hc. unfold nutrients in Hc. simpl in Hc.
  repeat (apply elem_of_cons in Hc as [->|Hc]); try (by eexists).
  by apply elem_of_nil in Hc.
Qed.

(** ** Sums of terms *)

Lemma fold_fadd_shift (ts : list fnum) :
  Forall is_fin ts ->
  exists c, forall x, fold_left fadd ts (Fin x) = Fin (x + c).
Proof.
  induction 1 as [|t ts [v ->] _ [c IH]].
  - exists 0. intros x. simpl. f_equal. lra.
  - exists (v + c). intros x. simpl. rewrite IH. f_equal. lra.
Qed.

Lemma fold_fadd_insert_lt (ts : list fnum) (i : nat) (t t' x : R) :
  Forall is_fin ts -> ts !! i = Some (Fin t) -> t' < t ->
  exists s s', fold_left fadd ts (Fin x) = Fin s
               /\ fold_left fadd (<[i := Fin t']> ts) (Fin x) = Fin s'
               /\ s' < s.
Proof.
  intros Hfin. revert i x.
  induction Hfin as [|u ts [v ->] Hts IH]; intros i x Hi Hlt; [done|].
  destruct i as [|i].
  - injection Hi as ->. destruct (fold_fadd_shift ts Hts) as [c Hc].
    exists (x + t + c), (x + t' + c). simpl. rewrite !Hc.
    repeat split; [done..|lra].
  - simpl in Hi. destruct (IH i (x + v) Hi Hlt) as (s & s' & H1 & H2 & H3).
    exists s, s'. simpl. by rewrite H1, H2.
Qed.

Lemma fold_fadd_has_nan (ts : list fnum) (acc : fnum) :
  NaN ∈ ts -> fold_left fadd ts acc = NaN.
Proof.
  intros Hin. revert acc. induction ts as [|t ts IH]; intros acc.
  - by apply elem_of_nil in Hin.
  - apply elem_of_cons in Hin as [<-|Hin]; simpl.
    + replace (fadd acc NaN) with NaN by (by destruct acc).
      apply fold_fadd_nan.
    + by apply IH.
Qed.

Lemma score_terms_bounds (acts : list fnum) :
  Forall (fun a => is_nan a = false) acts ->
  Forall (fun t => exists v, t = Fin v /\ 0 <= v <= 1) (score_terms acts).
Proof.
  unfold score_terms. generalize (snd <$> recommended_density_per_1000cal).
  intros rvs Hn. revert rvs.
  induction Hn as [|a acts Ha _ IH]; intros [|rv rvs]; simpl;
    try by constructor.
  constructor; [by apply score_term_bounds|apply IH].
Qed.

Lemma score_term_at_rec (rv : R) : score_term (Fin rv) rv = Fin 1.
Proof. by apply score_term_one_iff. Qed.

Lemma perfect_score : fsum (score_terms perfect_densities) = Fin 7.
Proof.
  unfold fsum, score_terms, perfect_densities.
  cbn [recommended_density_per_1000cal fmap list_fmap snd zip_with fold_left].
  rewrite !score_term_at_rec. simpl. f_equal. lra.
Qed.

(** C3, as the code has it.  For every row that holds its seven density
    columns, [health_score] is the sum, in the dict's order, of the seven
    terms [1 / (|actual - recommended| + 1)]; a term is 1 exactly when
    the actual density equals the recommended one, so a perfect match
    scores 7; and when none of the seven densities is NaN, every term
    lies in [0, 1] and the score in [0, 7]. *)
Theorem health_score_is_sum_of_terms (r : row) (acts : list fnum) :
  densities r = Some acts ->
  compute_health_score r = Some (fsum (score_terms acts))
  /\ (forall x rv, score_term (Fin x) rv = Fin (1 / (Rabs (x - rv) + 1)))
  /\ (forall a rv, score_term a rv = Fin 1 <-> a = Fin rv)
  /\ (acts = perfect_densities -> fsum (score_terms acts) = Fin 7)
  /\ (Forall (fun a => is_nan a = false) acts ->
        Forall (fun t => exists v, t = Fin v /\ 0 <= v <= 1)
               (score_terms acts)
        /\ exists s, fsum (score_terms acts) = Fin s /\ 0 <= s <= 7).
Proof.
  intros Hd. split_and!.
  - rewrite compute_health_score_sum, Hd. reflexivity.
  - intros x rv. apply score_term_cases.
  - apply score_term_one_iff.
  - intros ->. apply perfect_score.
  - intros Hn. split; [by apply score_terms_bounds|].
    destruct (fold_fadd_bounds (score_terms acts) 0) as (s & Hs & Hb);
      [by apply score_terms_bounds|].
    exists s. split; [exact Hs|].
    assert (length (score_terms acts) = 7%nat) as Hlen.
    { unfold score_terms. rewrite length_zip_with, (densities_length r acts Hd).
      reflexivity. }
    rewrite Hlen in Hb. simpl in Hb. lra.
Qed.

(** ** Classifier: the rule and what it reads *)

Lemma rule_cases (sodium fat : fnum) :
  let s_low := fleb sodium (Fin 1747.65) in
  let f_low := fleb fat (Fin 42.66) in
  let s_high := fgtb sodium (Fin 1747.65) in
  let f_high := fgtb fat (Fin 42.66) in
  (rule sodium fat = Healthy <-> s_low = true /\ f_low = true)
  /\ (rule sodium fat = Moderate <->
        (s_high = true /\ f_low = true) \/ (f_high = true /\ s_low = true))
  /\ (rule sodium fat = Unhealthy <->
        (s_high = true /\ f_high = true)
        \/ is_nan sodium = true \/ is_nan fat = true).
Proof.
  intros s_low f_low s_high f_high. unfold rule.
  fold s_low f_low s_high f_high.
  assert (is_nan sodium = true -> s_low = false /\ s_high = false) as Hns.
  { intros E. by destruct sodium. }
  assert (is_nan fat = true -> f_low = false /\ f_high = false) as Hnf.
  { intros E. by destruct fat. }
  assert (is_nan sodium = false -> s_high = negb s_low) as Hfs.
  { intros E. by apply fgtb_not_fleb. }
  assert (is_nan fat = false -> f_high = negb f_low) as Hff.
  { intros E. by apply fgtb_not_fleb. }
  clearbody s_low f_low s_high f_high.
  destruct (is_nan sodium), (is_nan fat);
    try (destruct Hns as [-> ->]; [done|]);
    try (destruct Hnf as [-> ->]; [done|]);
    try (rewrite Hfs by done); try (rewrite Hff by done);
    try destruct s_low; try destruct f_low; simpl;
    intuition discriminate.
Qed.

(** C2, as the code has it.  A row that holds the three density columns
    gets one label, a function of its sodium and total-fat densities and
    of the limits 1747.65 and 42.66: Healthy exactly when both are at or
    below their limits, Moderate exactly when one is above its limit and
    the other is at or below its own, Unhealthy in the remaining cases,
    which are both above or a NaN density; sodium 2000 with fat 40 is
    Moderate. *)
Theorem classify_health_labels (r : row) (sodium fat : fnum) :
  get_num r "sodium_per_1000cal" = Some sodium ->
  get_num r "total_fat_per_1000cal" = Some fat ->
  is_Some (r !! "sugar_per_1000cal") ->
  exists l, classify_health r = Some l
    /\ (l = Healthy <->
          fleb sodium (Fin 1747.65) = true /\ fleb fat (Fin 42.66) = true)
    /\ (l = Moderate <->
          (fgtb sodium (Fin 1747.65) = true /\ fleb fat (Fin 42.66) = true)
          \/ (fgtb fat (Fin 42.66) = true
              /\ fleb sodium (Fin 1747.65) = true))
    /\ (l = Unhealthy <->
          (fgtb sodium (Fin 1747.65) = true /\ fgtb fat (Fin 42.66) = true)
          \/ is_nan sodium = true \/ is_nan fat = true)
    /\ (sodium = Fin 2000 -> fat = Fin 40 -> l = Moderate).
Proof.
  intros Hs Hf Hg. exists (rule sodium fat).
  destruct (rule_cases sodium fat) as (HH & HM & HU).
  split_and!; try done.
  - by apply classify_health_eq.
  - intros -> ->. apply HM. left. split.
    + unfold fgtb. apply fltb_Fin_true. lra.
    + apply fleb_Fin_true. lra.
Qed.

(** C6.  Two rows that hold a sugar density and agree on the sodium and
    total-fat density cells get the same result from the classifier,
    whatever their other cells are. *)
Theorem classify_health_reads_two_columns (r1 r2 : row) :
  r1 !! "sodium_per_1000cal" = r2 !! "sodium_per_1000cal" ->
  r1 !! "total_fat_per_1000cal" = r2 !! "total_fat_per_1000cal" ->
  is_Some (r1 !! "sugar_per_1000cal") ->
  is_Some (r2 !! "sugar_per_1000cal") ->
  classify_health r1 = classify_health r2.
Proof.
  intros Hs Hf [g1 Hg1] [g2 Hg2]. unfold classify_health, get_num.
  rewrite Hs, Hf, Hg1, Hg2. reflexivity.
Qed.

(** ** Monotonicity of the score *)

Lemma deviation_cases (actual : fnum) (rec_value : R) :
  deviation actual rec_value =
  match actual with
  | Fin x => Fin (Rabs (x - rec_value))
  | PInf | NInf => PInf
  | NaN => NaN
  end.
Proof. by destruct actual. Qed.

Lemma inv_succ_lt (d d' : R) :
  0 <= d -> d < d' -> 1 / (d' + 1) < 1 / (d + 1).
Proof.
  intros Hd Hlt. unfold Rdiv. rewrite !Rmult_1_l.
  apply Rinv_lt_contravar; nra.
Qed.

Lemma score_term_decreasing (a a' : fnum) (rec_value : R) :
  fltb (deviation a rec_value) (deviation a' rec_value) = true ->
  fltb (score_term a' rec_value) (score_term a rec_value) = true.
Proof.
  rewrite !deviation_cases, !score_term_cases.
  destruct a as [x| | |], a' as [x'| | |]; try done.
  - intros Hlt%fltb_Fin. apply fltb_Fin_true.
    apply inv_succ_lt; [apply Rabs_pos|done].
  - intros _. apply fltb_Fin_true. apply score_term_range.
  - intros _. apply fltb_Fin_true. apply score_term_range.
Qed.

Lemma score_term_vanishes (rec_value eps : R) :
  0 < eps ->
  exists D, forall a,
    fltb (Fin D) (deviation a rec_value) = true ->
    fleb (Fin 0) (score_term a rec_value) = true
    /\ fltb (score_term a rec_value) (Fin eps) = true.
Proof.
  intros Heps. exists (1 / eps). intros a.
  rewrite deviation_cases, score_term_cases.
  destruct a as [x| | |]; try done.
  - intros Hlt%fltb_Fin.
    pose proof (score_term_range x rec_value) as [H0 H1].
    split; [apply fleb_Fin_true; lra|]. apply fltb_Fin_true.
    set (d := Rabs (x - rec_value)) in *.
    assert (0 < 1 / eps) as Hpos.
    { unfold Rdiv. rewrite Rmult_1_l. by apply Rinv_0_lt_compat. }
    assert (1 / (d + 1) < 1 / (1 / eps)) as Hlt'.
    { unfold Rdiv. rewrite !Rmult_1_l. apply Rinv_lt_contravar; nra. }
    replace (1 / (1 / eps)) with eps in Hlt'; [done|].
    field. lra.
  - intros _. split; [apply fleb_Fin_true; lra|by apply fltb_Fin_true].
  - intros _. split; [apply fleb_Fin_true; lra|by apply fltb_Fin_true].
Qed.

Lemma score_terms_insert (acts : list fnum) (i : nat) (a' : fnum)
    (rec_value : R) :
  (snd <$> recommended_density_per_1000cal) !! i = Some rec_value ->
  score_terms (<[i := a']> acts)
  = <[i := score_term a' rec_value]> (score_terms acts).
Proof.
  intros Hi. unfold score_terms. rewrite insert_zip_with.
  by rewrite (list_insert_id _ _ _ Hi).
Qed.

Lemma score_terms_lookup (acts : list fnum) (i : nat) (a : fnum)
    (rec_value : R) :
  acts !! i = Some a ->
  (snd <$> recommended_density_per_1000cal) !! i = Some rec_value ->
  score_terms acts !! i = Some (score_term a rec_value).
Proof.
  intros Ha Hi. unfold score_terms. by rewrite lookup_zip_with, Ha, Hi.
Qed.

(** In exact arithmetic, and with no NaN among the densities, a larger
    deviation of one density gives a smaller sum of terms.  The theorem
    on the score only uses that the sum does not grow. *)
Lemma score_sum_decreases (acts : list fnum) (i : nat) (a a' : fnum)
    (rec_value : R) :
  acts !! i = Some a ->
  (snd <$> recommended_density_per_1000cal) !! i = Some rec_value ->
  fltb (deviation a rec_value) (deviation a' rec_value) = true ->
  Forall (fun b => is_nan b = false) acts ->
  exists s s', fsum (score_terms acts) = Fin s
               /\ fsum (score_terms (<[i := a']> acts)) = Fin s'
               /\ s' < s.
Proof.
  intros Ha Hrv Hdev Hall.
  assert (is_nan a = false /\ is_nan a' = false) as [Hna Hna'].
  { rewrite !deviation_cases in Hdev.
    destruct a as [x| | |], a' as [x'| | |]; done. }
  assert (Forall is_fin (score_terms acts)) as Hfin.
  { eapply Forall_impl; [by apply score_terms_bounds|].
    intros t (v & -> & _). by exists v. }
  destruct (score_term_bounds a rec_value Hna) as (t & Ht & _).
  destruct (score_term_bounds a' rec_value Hna') as (t' & Ht' & _).
  pose proof (score_term_decreasing a a' rec_value Hdev) as Hlt.
  rewrite Ht, Ht' in Hlt. apply fltb_Fin in Hlt.
  assert (score_terms acts !! i = Some (Fin t)) as Hti.
  { rewrite <- Ht. by apply score_terms_lookup. }
  destruct (fold_fadd_insert_lt _ i t t' 0 Hfin Hti Hlt)
    as (s & s' & Hs & Hs' & Hss).
  exists s, s'. unfold fsum.
  by rewrite (score_terms_insert _ _ _ _ Hrv), Ht', Hs, Hs'.
Qed.

(** ** Minimum and maximum of a series *)

Lemma dropna_elem (l : list fnum) (a : fnum) :
  a ∈ dropna l <-> a ∈ l /\ is_nan a = false.
Proof.
  unfold dropna. rewrite !list_elem_of_In, filter_In.
  by rewrite negb_true_iff.
Qed.

Lemma dropna_score_like (l : list fnum) :
  Forall score_like l -> Forall is_fin (dropna l).
Proof.
  intros Hl. apply Forall_forall. intros a [Ha Hn]%dropna_elem.
  rewrite Forall_forall in Hl. destruct (Hl a Ha) as [->|Hf]; done.
Qed.

Lemma fold_min_fin (t : list fnum) (x : fnum) :
  Forall is_fin (x :: t) ->
  exists m, fold_left (fun m y => if fltb y m then y else m) t x = Fin m
            /\ Fin m ∈ x :: t
            /\ forall y, Fin y ∈ x :: t -> m <= y.
Proof.
  revert x. induction t as [|b t IH]; intros x Hf.
  - apply Forall_cons in Hf as [[v ->] _]. exists v. simpl.
    split_and!; [done|left|].
    intros y Hy. apply list_elem_of_singleton in Hy. injection Hy as ->. lra.
  - apply Forall_cons in Hf as [[v ->] Hf].
    pose proof Hf as Hf'. apply Forall_cons in Hf' as [[w ->] Ht].
    cbn [fold_left].
    destruct (fltb (Fin w) (Fin v)) eqn:E.
    + apply fltb_Fin in E.
      destruct (IH (Fin w) Hf) as (m & Hm & Hin & Hle).
      exists m. split_and!; [done|by right|].
      intros y Hy. apply elem_of_cons in Hy as [Hy|Hy]; [|by apply Hle].
      injection Hy as ->. specialize (Hle w). 
      assert (m <= w) by (apply Hle; left). lra.
    + assert (v <= w) as Hvw.
      { destruct (Rle_dec v w); [done|].
        rewrite fltb_Fin_true in E; [done|lra]. }
      destruct (IH (Fin v)) as (m & Hm & Hin & Hle).
      { constructor; [by eexists|done]. }
      exists m. split_and!; [done| |].
      * apply elem_of_cons in Hin as [->|Hin]; [left|right; by right].
      * intros y Hy. rewrite !elem_of_cons in Hy.
        destruct Hy as [Hy|[Hy|Hy]].
        -- injection Hy as ->. apply Hle. left.
        -- injection Hy as ->. assert (m <= v) by (apply Hle; left). lra.
        -- apply Hle. by right.
Qed.

Lemma fold_max_fin (t : list fnum) (x : fnum) :
  Forall is_fin (x :: t) ->
  exists m, fold_left (fun m y => if fltb m y then y else m) t x = Fin m
            /\ Fin m ∈ x :: t
            /\ forall y, Fin y ∈ x :: t -> y <= m.
Proof.
  revert x. induction t as [|b t IH]; intros x Hf.
  - apply Forall_cons in Hf as [[v ->] _]. exists v. simpl.
    split_and!; [done|left|].
    intros y Hy. apply list_elem_of_singleton in Hy. injection Hy as ->. lra.
  - apply Forall_cons in Hf as [[v ->] Hf].
    pose proof Hf as Hf'. apply Forall_cons in Hf' as [[w ->] Ht].
    cbn [fold_left].
    destruct (fltb (Fin v) (Fin w)) eqn:E.
    + apply fltb_Fin in E.
      destruct (IH (Fin w) Hf) as (m & Hm & Hin & Hle).
      exists m. split_and!; [done|by right|].
      intros y Hy. apply elem_of_cons in Hy as [Hy|Hy]; [|by apply Hle].
      injection Hy as ->.
      assert (w <= m) by (apply Hle; left). lra.
    + assert (w <= v) as Hvw.
      { destruct (Rle_dec w v); [done|].
        rewrite fltb_Fin_true in E; [done|lra]. }
      destruct (IH (Fin v)) as (m & Hm & Hin & Hle).
      { constructor; [by eexists|done]. }
      exists m. split_and!; [done| |].
      * apply elem_of_cons in Hin as [->|Hin]; [left|right; by right].
      * intros y Hy. rewrite !elem_of_cons in Hy.
        destruct Hy as [Hy|[Hy|Hy]].
        -- injection Hy as ->. apply Hle. left.
        -- injection Hy as ->. assert (v <= m) by (apply Hle; left). lra.
        -- apply Hle. by right.
Qed.

(** On a series of scores with at least one number, the minimum and the
    maximum are numbers of the series that bound its numbers. *)
Lemma series_min_max (l : list fnum) (x : R) :
  Forall score_like l -> Fin x ∈ l ->
  exists lo hi, series_min l = Fin lo /\ series_max l = Fin hi
                /\ Fin lo ∈ l /\ Fin hi ∈ l
                /\ forall y, Fin y ∈ l -> lo <= y <= hi.
Proof.
  intros Hl Hx. pose proof (dropna_score_like l Hl) as Hfin.
  assert (Fin x ∈ dropna l) as Hx' by (by apply dropna_elem).
  unfold series_min, series_max.
  assert (forall y, Fin y ∈ l -> Fin y ∈ dropna l) as Hin
    by (intros y Hy; by apply dropna_elem).
  assert (forall y, Fin y ∈ dropna l -> Fin y ∈ l) as Hout
    by (intros y Hy; by apply dropna_elem in Hy as [? _]).
  destruct (dropna l) as [|a t]; [by apply elem_of_nil in Hx'|].
  destruct (fold_min_fin t a Hfin) as (lo & -> & Hlo & Hle).
  destruct (fold_max_fin t a Hfin) as (hi & -> & Hhi & Hge).
  exists lo, hi. split_and!; try done; try by apply Hout.
  intros y Hy. split; [apply Hle|apply Hge]; by apply Hin.
Qed.

Lemma series_min_max_all_nan (l : list fnum) :
  (forall a, a ∈ l -> a = NaN) -> series_min l = NaN /\ series_max l = NaN.
Proof.
  intros Hl. unfold series_min, series_max.
  destruct (dropna l) as [|a t] eqn:E; [done|].
  assert (a ∈ dropna l) as Ha by (rewrite E; left).
  apply dropna_elem in Ha as [Ha Hn]. rewrite (Hl a Ha) in Hn. done.
Qed.

(** ** Normalization *)

Lemma score_term_like (a : fnum) (rec_value : R) :
  score_like (score_term a rec_value).
Proof.
  rewrite score_term_cases.
  destruct a; [right|right|right|left]; try done; by eexists.
Qed.

Lemma fold_fadd_score_like (ts : list fnum) (acc : fnum) :
  score_like acc -> Forall score_like ts ->
  score_like (fold_left fadd ts acc).
Proof.
  intros Hacc Hts. revert acc Hacc.
  induction Hts as [|t ts Ht _ IH]; intros acc Hacc; [done|].
  simpl. apply IH.
  destruct Hacc as [->|[x ->]]; [by left|].
  destruct Ht as [->|[y ->]]; [by left|]. right. by eexists.
Qed.

Lemma compute_health_score_like (r : row) (s : fnum) :
  compute_health_score r = Some s -> score_like s.
Proof.
  rewrite compute_health_score_sum.
  destruct (densities r) as [acts|]; [|done]. intros [= <-].
  apply fold_fadd_score_like; [right; by eexists|].
  unfold score_terms. generalize (snd <$> recommended_density_per_1000cal).
  induction acts as [|a acts IH]; intros [|rv rvs]; simpl;
    try by constructor.
  constructor; [apply score_term_like|apply IH].
Qed.

Lemma add_health_score_rows (df df' : frame) :
  add_health_score df = Some df' ->
  Forall2 (fun r r' : row =>
             exists s, compute_health_score r = Some s
                       /\ r' = <["health_score"%string := Num s]> r)
          df df'.
Proof.
  intros Hrun. apply assign_rows in Hrun.
  eapply Forall2_impl; [exact Hrun|]. intros r r' (v & Hv & ->).
  destruct (compute_health_score r) as [s|]; [|done].
  exists s. split; [done|]. simpl in Hv. by injection Hv as <-.
Qed.

Lemma column_rows (c : string) (df : frame) (l : list fnum) :
  column c df = Some l <->
  Forall2 (fun (r : row) a => get_num r c = Some a) df l.
Proof. apply mapM_Some. Qed.

Lemma health_score_column (df df' : frame) :
  add_health_score df = Some df' ->
  exists scores, column "health_score" df' = Some scores
                 /\ Forall score_like scores.
Proof.
  intros Hrun%add_health_score_rows.
  induction Hrun as [|r r' df df' (s & Hs & ->) _ (scores & Hc & Hl)].
  - by exists [].
  - exists (s :: scores). split.
    + unfold column in *. rewrite mapM_cons, Hc.
      unfold get_num. by rewrite lookup_insert_eq.
    + constructor; [by eapply compute_health_score_like|done].
Qed.

Lemma Forall2_elem_of_r {A B : Type} (P : A -> B -> Prop) (l : list A)
    (k : list B) :
  Forall2 P l k -> Forall (fun x => exists y, y ∈ k /\ P x y) l.
Proof.
  induction 1 as [|x y l k Hxy _ IH]; constructor.
  - exists y. split; [left|done].
  - eapply Forall_impl; [exact IH|]. intros x' (y' & Hy' & HP).
    exists y'. split; [by right|done].
Qed.

Lemma Forall2_right {A B : Type} (P : A -> B -> Prop) (Q : B -> Prop)
    (l : list A) (k : list B) :
  Forall2 P l k -> (forall x y, P x y -> Q y) -> Forall Q k.
Proof. induction 1; intros HPQ; constructor; eauto. Qed.

Lemma Forall2_and_Forall_l {A B : Type} (P : A -> B -> Prop)
    (Q : A -> Prop) (l : list A) (k : list B) :
  Forall2 P l k -> Forall Q l -> Forall2 (fun x y => P x y /\ Q x) l k.
Proof.
  induction 1 as [|x y l k Hxy _ IH]; intros HQ; [constructor|].
  apply Forall_cons in HQ as [Hx HQ]. constructor; [done|by apply IH].
Qed.

Lemma normalize_rows (df : frame) (scores : list fnum) :
  column "health_score" df = Some scores ->
  exists df', normalize df = Some df'
    /\ Forall2 (fun r r' : row =>
                  exists s, s ∈ scores
                    /\ get_num r "health_score" = Some s
                    /\ r' = <["Health Score"%string :=
                                Num (scaled s (series_min scores)
                                            (series_max scores))]> r)
               df df'.
Proof.
  intros Hc. unfold normalize. rewrite Hc. simpl.
  apply column_rows, Forall2_elem_of_r in Hc.
  match goal with |- exists df', assign ?c ?f df = _ /\ _ =>
    destruct (assign_total c f df) as [df' Hrun] end.
  { eapply Forall_impl; [exact Hc|]. intros r (s & _ & Hs).
    rewrite Hs. by eexists. }
  exists df'. split; [done|].
  apply assign_rows in Hrun.
  eapply Forall2_impl; [exact (Forall2_and_Forall_l _ _ _ _ Hrun Hc)|].
  intros r r' [(v & Hv & ->) (s & Hin & Hs)].
  exists s. split_and!; try done.
  rewrite Hs in Hv. simpl in Hv. by injection Hv as <-.
Qed.

Lemma fdiv_Fin_nonzero (x y : R) : y <> 0 -> fdiv (Fin x) (Fin y) = Fin (x / y).
Proof. intros Hy. simpl. by destruct (Req_dec_T y 0). Qed.

Lemma fdiv_zero_zero (x y : R) : x = 0 -> y = 0 -> fdiv (Fin x) (Fin y) = NaN.
Proof.
  intros -> ->. simpl. destruct (Req_dec_T 0 0); [|done].
  destruct (Rlt_dec 0 0); [lra|done].
Qed.

(** With distinct extremes a numeric score is scaled into [0, 1]. *)
Lemma scaled_range (s lo hi : R) :
  lo <= s <= hi -> lo <> hi ->
  exists v, scaled (Fin s) (Fin lo) (Fin hi) = Fin v
            /\ 0 <= v <= 1 /\ (s = lo -> v = 0) /\ (s = hi -> v = 1).
Proof.
  intros Hs Hne. unfold scaled. simpl fsub.
  rewrite fdiv_Fin_nonzero by lra.
  eexists. split; [reflexivity|].
  assert (0 < hi + - lo) as Hpos by lra.
  assert (0 < / (hi + - lo)) as Hi by (by apply Rinv_0_lt_compat).
  assert (/ (hi + - lo) * (hi + - lo) = 1) as Hm by (apply Rinv_l; lra).
  unfold Rdiv. split_and!.
  - nra.
  - nra.
  - intros ->. nra.
  - intros ->. nra.
Qed.

(** C4, as the code has it.  After the scorer, normalization returns a
    table where each row's ['Health Score'] is
    [(health_score - min_score) / (max_score - min_score)], the minimum
    and maximum taken over the non-NaN scores of the whole table; if the
    two differ, every row whose score is not NaN gets a value in [0, 1],
    which is 0 for a row at the minimum and 1 for a row at the maximum. *)
Theorem normalized_score_range (df0 df : frame) :
  add_health_score df0 = Some df ->
  exists scores df',
    column "health_score" df = Some scores
    /\ normalize df = Some df'
    /\ Forall2
         (fun r r' : row =>
            exists s,
              get_num r "health_score" = Some s
              /\ r' !! "Health Score"
                 = Some (Num (fdiv (fsub s (series_min scores))
                                   (fsub (series_max scores)
                                         (series_min scores))))
              /\ (series_max scores <> series_min scores ->
                  is_nan s = false ->
                  exists v,
                    fdiv (fsub s (series_min scores))
                         (fsub (series_max scores) (series_min scores))
                    = Fin v
                    /\ 0 <= v <= 1
                    /\ (s = series_min scores -> v = 0)
                    /\ (s = series_max scores -> v = 1)))
         df df'.
Proof.
  intros Hrun. destruct (health_score_column _ _ Hrun) as (scores & Hc & Hl).
  destruct (normalize_rows df scores Hc) as (df' & Hn & Hrows).
  exists scores, df'. split_and!; try done.
  eapply Forall2_impl; [exact Hrows|].
  intros r r' (s & Hin & Hs & ->). exists s. split_and!; try done.
  - by rewrite lookup_insert_eq.
  - intros Hne Hnan.
    assert (score_like s) as [->|[x ->]]
      by (rewrite Forall_forall in Hl; by apply Hl); [done|].
    destruct (series_min_max scores x Hl Hin)
      as (lo & hi & Hlo & Hhi & _ & _ & Hb).
    rewrite Hlo, Hhi in *.
    assert (lo <> hi) as Hlh by (intros ->; done).
    destruct (scaled_range x lo hi (Hb x Hin) Hlh) as (v & Hv & Hr & H0 & H1).
    exists v. split; [exact Hv|]. split; [exact Hr|]. split.
    + intros [= ->]. by apply H0.
    + intros [= ->]. by apply H1.
Qed.

(** C8.  After the scorer, if the maximum and the minimum of the scores
    are equal, normalization still returns a table, but the divisor
    [max_score - min_score] is zero (when the common score is a number)
    and every row's ['Health Score'] is NaN: no row gets a defined
    normalized score. *)
Theorem normalize_undefined_when_scores_equal (df0 df : frame) :
  add_health_score df0 = Some df ->
  exists scores df',
    column "health_score" df = Some scores
    /\ normalize df = Some df'
    /\ (series_max scores = series_min scores ->
        (is_nan (series_min scores) = false ->
         fsub (series_max scores) (series_min scores) = Fin 0)
        /\ Forall (fun r' : row => r' !! "Health Score" = Some (Num NaN))
                  df').
Proof.
  intros Hrun. destruct (health_score_column _ _ Hrun) as (scores & Hc & Hl).
  destruct (normalize_rows df scores Hc) as (df' & Hn & Hrows).
  exists scores, df'. split_and!; try done.
  intros Heq. split.
  - rewrite Heq. destruct (series_min scores) as [m| | |]; try done.
    + intros _. simpl. f_equal. lra.
    + unfold series_max in Heq.
      pose proof (dropna_score_like scores Hl) as Hfin.
      destruct (dropna scores) as [|a t]; [done|].
      destruct (fold_max_fin t a Hfin) as (hi & Hhi & _). congruence.
    + unfold series_max in Heq.
      pose proof (dropna_score_like scores Hl) as Hfin.
      destruct (dropna scores) as [|a t]; [done|].
      destruct (fold_max_fin t a Hfin) as (hi & Hhi & _). congruence.
  - eapply Forall2_right; [exact Hrows|].
    intros r r' (s & Hin & Hs & ->). rewrite lookup_insert_eq.
    do 2 f_equal.
    assert (score_like s) as [->|[x ->]]
      by (rewrite Forall_forall in Hl; by apply Hl); [done|].
    destruct (series_min_max scores x Hl Hin)
      as (lo & hi & Hlo & Hhi & _ & _ & Hb).
    rewrite Hlo, Hhi in *. injection Heq as ->.
    specialize (Hb x Hin). simpl fsub. apply fdiv_zero_zero; lra.
Qed.

(** ** Cleaner: the fill value on the column [10, null, 30] *)

Lemma sample_dropna : dropna sample_column = [Fin 10; Fin 30].
Proof. reflexivity. Qed.

Lemma sample_mean : series_mean sample_column = Fin 20.
Proof.
  unfold series_mean. rewrite sample_dropna.
  change (fsum [Fin 10; Fin 30]) with (Fin (0 + 10 + 30)).
  rewrite fdiv_Fin_nonzero by (simpl; lra). f_equal. simpl. lra.
Qed.

Lemma sample_mean_values : series_mean [Fin 10; Fin 30] = Fin 20.
Proof.
  unfold series_mean.
  change (dropna [Fin 10; Fin 30]) with [Fin 10; Fin 30].
  change (fsum [Fin 10; Fin 30]) with (Fin (0 + 10 + 30)).
  rewrite fdiv_Fin_nonzero by (simpl; lra). f_equal. simpl. lra.
Qed.

Lemma sample_std : series_std sample_column = Fin (sqrt 200).
Proof.
  unfold series_std. rewrite sample_dropna, sample_mean_values.
  change (fsum _) with (Fin (0 + (10 + - 20) * (10 + - 20)
                               + (30 + - 20) * (30 + - 20))).
  rewrite fdiv_Fin_nonzero by (simpl; lra).
  unfold fsqrt. destruct (Rlt_dec _ 0) as [Hlt|_].
  - simpl in Hlt. lra.
  - do 2 f_equal. simpl. lra.
Qed.

Lemma sample_min : series_min sample_column = Fin 10.
Proof.
  unfold series_min. rewrite sample_dropna. cbn [fold_left].
  by rewrite fltb_Fin_false by lra.
Qed.

Lemma sample_max : series_max sample_column = Fin 30.
Proof.
  unfold series_max. rewrite sample_dropna. cbn [fold_left].
  by rewrite fltb_Fin_true by lra.
Qed.

Lemma sample_sorted : fsort (dropna sample_column) = [Fin 10; Fin 30].
Proof.
  rewrite sample_dropna. unfold fsort. cbn [fold_right finsert].
  by rewrite fleb_Fin_true by lra.
Qed.

Lemma sample_quantile (k : nat) :
  (0 < k < 4)%nat ->
  quantile4 k sample_column = Fin (10 + (30 + - 10) * (INR k / 4)).
Proof.
  intros Hk. unfold quantile4. rewrite sample_sorted.
  cbn [length]. replace ((2 - 1) * k)%nat with k by lia.
  rewrite (Nat.div_small k 4), (Nat.mod_small k 4) by lia.
  destruct (Nat.eqb_spec k 0) as [->|_]; [lia|]. reflexivity.
Qed.

Lemma sample_describe :
  describe sample_column
  = [Fin 2; Fin 20; Fin (sqrt 200); Fin 10; Fin 15; Fin 20; Fin 25; Fin 30].
Proof.
  unfold describe.
  rewrite sample_mean, sample_std, sample_min, sample_max,
    !sample_quantile, sample_dropna by lia.
  repeat (f_equal; try (simpl; lra)).
Qed.

Lemma sqrt_200_not_38 : sqrt 200 <> 38.
Proof.
  intros E. pose proof (sqrt_def 200 ltac:(lra)) as Hd.
  rewrite E in Hd. lra.
Qed.

(** ** Cleaner: what [clean] does to a row *)

Lemma null_cols_avg_loop (df : frame) (cols : list string)
    (acc avg : gmap string fnum) :
  for_each (fun (acc : gmap string fnum) col =>
              l ← column col df; Some (<[col := col_avg l]> acc))
           cols acc = Some avg ->
  (forall c, c ∈ cols ->
     exists l, column c df = Some l /\ avg !! c = Some (col_avg l))
  /\ (forall c, c ∉ cols -> avg !! c = acc !! c).
Proof.
  revert acc. induction cols as [|c cols IH]; intros acc Hrun.
  - injection Hrun as <-. split; [|done]. intros c Hc. by inversion Hc.
  - cbn [for_each] in Hrun.
    destruct (column c df) as [l|] eqn:Hl; [|done]. simpl in Hrun.
    destruct (IH _ Hrun) as [Hin Hout]. split.
    + intros c' Hc'. destruct (decide (c' ∈ cols)) as [Hd|Hd]; [by apply Hin|].
      apply elem_of_cons in Hc' as [->|Hc']; [|done].
      exists l. split; [done|]. rewrite (Hout c Hd). by rewrite lookup_insert_eq.
    + intros c' Hc'. apply not_elem_of_cons in Hc' as [Hne Hc'].
      rewrite (Hout c' Hc'). by rewrite lookup_insert_ne.
Qed.

Lemma lookup_fold_delete (cols : list string) (r : row) (c : string) :
  fold_right (fun c (m : row) => delete c m) r cols !! c
  = if decide (c ∈ cols) then None else r !! c.
Proof.
  induction cols as [|d cols IH]; cbn [fold_right].
  - by rewrite decide_False by (apply not_elem_of_nil).
  - destruct (decide (d = c)) as [->|Hne].
    + rewrite lookup_delete_eq. by rewrite decide_True by left.
    + rewrite lookup_delete_ne, IH by done.
      destruct (decide (c ∈ cols)) as [Hc|Hc].
      * by rewrite decide_True by (by right).
      * rewrite decide_False; [done|].
        intros [->|?]%elem_of_cons; done.
Qed.

Lemma drop_rows (cols : list string) (df df1 : frame) :
  drop cols df = Some df1 ->
  Forall2 (fun r r1 : row =>
             forall c, r1 !! c = if decide (c ∈ cols) then None else r !! c)
          df df1.
Proof.
  intros Hrun. apply mapM_Some in Hrun.
  eapply Forall2_impl; [exact Hrun|]. intros r r1 Hr. simpl in Hr.
  destruct (forallb _ cols); [|done]. injection Hr as <-.
  intros c. apply lookup_fold_delete.
Qed.

Lemma fillna_rows (vals : gmap string fnum) (df : frame) :
  Forall2 (fun r r' : row => forall c, r' !! c = fill_cell vals c <$> r !! c)
          df (fillna vals df).
Proof.
  unfold fillna. induction df as [|r df IH]; constructor; [|done].
  intros c. rewrite map_lookup_imap. by destruct (r !! c).
Qed.

(** Row by row, [clean] removes the three dropped columns and passes
    every other cell through [fill_cell] with the dict of fill values. *)
Lemma clean_rows (df df' : frame) :
  clean df = Some df' ->
  exists avg, null_cols_avg df = Some avg
    /\ Forall2 (fun r r' : row =>
                  forall c, r' !! c = if decide (c ∈ dropped_cols) then None
                                      else fill_cell avg c <$> r !! c)
               df df'.
Proof.
  unfold clean. intros Hrun.
  destruct (null_cols_avg df) as [avg|]; [|done]. simpl in Hrun.
  destruct (drop dropped_cols df) as [df1|] eqn:Hd; [|done].
  injection Hrun as <-. exists avg. split; [done|].
  apply drop_rows in Hd. pose proof (fillna_rows avg df1) as Hf.
  revert Hf. generalize (fillna avg df1). intros df' Hf.
  revert df' Hf. induction Hd as [|r r1 df df1 Hr _ IH]; intros df' Hf.
  - inversion Hf. constructor.
  - inversion Hf as [|? r' ? df'' Hr' Hf' ]; subst. constructor; [|by apply IH].
    intros c. rewrite Hr', Hr. by destruct (decide (c ∈ dropped_cols)).
Qed.

(** In a column of [null_cols] a null becomes [col_avg] of the column,
    and every other number is kept. *)
Lemma clean_fills_with_col_avg (df df' : frame) (c : string)
    (l : list fnum) :
  clean df = Some df' -> c ∈ null_cols -> column c df = Some l ->
  column c df'
  = Some ((fun a => if is_nan a then col_avg l else a) <$> l).
Proof.
  intros Hrun Hc Hl. destruct (clean_rows _ _ Hrun) as (avg & Havg & Hrows).
  destruct (null_cols_avg_loop df null_cols ∅ avg Havg) as [Hin _].
  destruct (Hin c Hc) as (l' & Hl' & Hv).
  assert (l' = l) as -> by congruence.
  assert (c ∉ dropped_cols) as Hnd.
  { intros Hd. unfold null_cols, dropped_cols in *.
    repeat (apply elem_of_cons in Hc as [->|Hc]);
      repeat (apply elem_of_cons in Hd as [Hd|Hd]; [done|]);
      try (by apply elem_of_nil in Hd); by apply elem_of_nil in Hc. }
  clear Hrun Havg Hin Hl'. apply column_rows in Hl. apply column_rows.
  remember (col_avg l) as fill eqn:E. clear E. revert l Hl.
  induction Hrows as [|r r' df df' Hr _ IH]; intros k Hl.
  - inversion Hl. constructor.
  - inversion Hl as [|? a ? k' Ha Hk]; subst. rewrite fmap_cons.
    constructor; [|by apply IH].
    unfold get_num in *. rewrite Hr, decide_False by done.
    destruct (r !! c) as [[x|]|]; try done. injection Ha as ->.
    unfold fill_cell. rewrite Hv. by destruct a.
Qed.

(** ** Cleaner: the fill value of a column of numbers and nulls *)

Lemma score_like_fin (x : R) : score_like (Fin x).
Proof. right. by eexists. Qed.

Lemma score_like_nan : score_like NaN.
Proof. by left. Qed.

Lemma fadd_score_like (a b : fnum) :
  score_like a -> score_like b -> score_like (fadd a b).
Proof.
  intros [->|[x ->]] [->|[y ->]]; simpl;
    auto using score_like_fin, score_like_nan.
Qed.

Lemma fsub_score_like (a b : fnum) :
  score_like a -> score_like b -> score_like (fsub a b).
Proof.
  intros [->|[x ->]] [->|[y ->]]; simpl;
    auto using score_like_fin, score_like_nan.
Qed.

Lemma fmul_score_like (a b : fnum) :
  score_like a -> score_like b -> score_like (fmul a b).
Proof.
  intros [->|[x ->]] [->|[y ->]]; simpl;
    auto using score_like_fin, score_like_nan.
Qed.

Lemma is_fin_score_like (l : list fnum) :
  Forall is_fin l -> Forall score_like l.
Proof. intros Hl. eapply Forall_impl; [exact Hl|]. intros a Ha. by right. Qed.

Lemma dropna_fin (l : list fnum) : Forall is_fin l -> dropna l = l.
Proof.
  induction 1 as [|a l [x ->] _ IH]; [done|]. unfold dropna in *. simpl.
  by rewrite IH.
Qed.

Lemma fsum_fin (l : list fnum) : Forall is_fin l -> is_fin (fsum l).
Proof.
  intros Hl. destruct (fold_fadd_shift l Hl) as [c Hc].
  unfold fsum. rewrite Hc. by eexists.
Qed.

Lemma INR_pos_length {A : Type} (a : A) (l : list A) :
  INR (length (a :: l)) <> 0.
Proof.
  change (length (a :: l)) with (S (length l)). rewrite S_INR.
  pose proof (pos_INR (length l)). lra.
Qed.

(** The mean of numbers is a number as soon as there is one. *)
Lemma series_mean_fin (a : fnum) (l : list fnum) :
  Forall is_fin (a :: l) -> is_fin (series_mean (a :: l)).
Proof.
  intros Hl. unfold series_mean. rewrite (dropna_fin _ Hl).
  destruct (fsum_fin _ Hl) as [s ->].
  rewrite fdiv_Fin_nonzero by apply INR_pos_length. by eexists.
Qed.

Lemma series_mean_like (l : list fnum) :
  Forall score_like l -> score_like (series_mean l).
Proof.
  intros Hl. pose proof (dropna_score_like l Hl) as Hfin.
  unfold series_mean. destruct (dropna l) as [|a v] eqn:E.
  - left. by apply fdiv_zero_zero.
  - right. rewrite <- (dropna_fin _ Hfin).
    by apply (series_mean_fin a v).
Qed.

Lemma series_std_like (l : list fnum) :
  Forall score_like l -> score_like (series_std l).
Proof.
  intros Hl. pose proof (dropna_score_like l Hl) as Hfin.
  unfold series_std. destruct (dropna l) as [|a v] eqn:E.
  - left. change (fsum _) with (Fin 0).
    by rewrite fdiv_zero_zero.
  - destruct (series_mean_fin a v Hfin) as [mu Hmu]. rewrite Hmu.
    assert (is_fin (fsum ((fun x => fmul (fsub x (Fin mu)) (fsub x (Fin mu)))
                            <$> (a :: v)))) as [ss Hss].
    { apply fsum_fin. apply Forall_fmap. eapply Forall_impl; [exact Hfin|].
      intros b [x ->]. by eexists. }
    change (List.map ?f ?k) with (f <$> k). rewrite Hss.
    destruct v as [|b v].
    + (* one value: the sum of squares and the divisor are both zero *)
      left. pose proof Hfin as [[x ->] _]%Forall_cons.
      change (length [Fin x] - 1)%nat with 0%nat.
      rewrite fdiv_zero_zero; [done| |done].
      unfold series_mean in Hmu. change (dropna [Fin x]) with [Fin x] in Hmu.
      change (fsum [Fin x]) with (Fin (0 + x)) in Hmu.
      rewrite fdiv_Fin_nonzero in Hmu by (simpl; lra).
      injection Hmu as <-. 
      change (fsum _) with
        (Fin (0 + (x + - ((0 + x) / INR 1)) * (x + - ((0 + x) / INR 1))))
        in Hss.
      injection Hss as <-. simpl. field.
    + change (length (a :: b :: v) - 1)%nat with (length (b :: v)).
      rewrite fdiv_Fin_nonzero by apply INR_pos_length.
      unfold fsqrt. destruct (Rlt_dec _ 0); [by left|right; by eexists].
Qed.

Lemma series_min_like (l : list fnum) :
  Forall score_like l -> score_like (series_min l).
Proof.
  intros Hl. pose proof (dropna_score_like l Hl) as Hfin.
  unfold series_min. destruct (dropna l) as [|a v]; [by left|].
  destruct (fold_min_fin v a Hfin) as (m & -> & _). apply score_like_fin.
Qed.

Lemma series_max_like (l : list fnum) :
  Forall score_like l -> score_like (series_max l).
Proof.
  intros Hl. pose proof (dropna_score_like l Hl) as Hfin.
  unfold series_max. destruct (dropna l) as [|a v]; [by left|].
  destruct (fold_max_fin v a Hfin) as (m & -> & _). apply score_like_fin.
Qed.

Lemma finsert_like (a : fnum) (l : list fnum) :
  score_like a -> Forall score_like l -> Forall score_like (finsert a l).
Proof.
  intros Ha. induction 1 as [|b l Hb Hl IH]; simpl.
  - by constructor.
  - destruct (fleb a b).
    + constructor; [done|by constructor].
    + by constructor.
Qed.

Lemma fsort_like (l : list fnum) :
  Forall score_like l -> Forall score_like (fsort l).
Proof.
  induction 1 as [|a l Ha _ IH]; [constructor|].
  unfold fsort in *. simpl. by apply finsert_like.
Qed.

Lemma nth_like (l : list fnum) (i : nat) (d : fnum) :
  Forall score_like l -> score_like d -> score_like (List.nth i l d).
Proof.
  intros Hl Hd. revert i. induction Hl as [|a l Ha _ IH]; intros [|i]; simpl;
    auto.
Qed.

Lemma quantile4_like (k : nat) (l : list fnum) :
  Forall score_like l -> score_like (quantile4 k l).
Proof.
  intros Hl. unfold quantile4.
  assert (Forall score_like (fsort (dropna l))) as Hs.
  { apply fsort_like, is_fin_score_like, dropna_score_like, Hl. }
  destruct (fsort (dropna l)) as [|a v] eqn:E; [by left|].
  set (p := ((length (a :: v) - 1) * k)%nat).
  assert (score_like (List.nth (p / 4) (a :: v) NaN)) as Hlo
    by (apply nth_like; [done|by left]).
  assert (score_like
            (List.nth (S (p / 4)) (a :: v) (List.nth (p / 4) (a :: v) NaN)))
    as Hhi by (by apply nth_like).
  destruct (p mod 4 =? 0)%nat; [done|].
  apply fadd_score_like; [done|].
  apply fmul_score_like; [by apply fsub_score_like|apply score_like_fin].
Qed.

(** On a column of numbers and nulls the fill value is a number. *)
Lemma col_avg_fin (l : list fnum) : Forall score_like l -> is_fin (col_avg l).
Proof.
  intros Hl. unfold col_avg, series_mean.
  assert (Forall score_like (describe l)) as Hd.
  { unfold describe.
    repeat (apply Forall_cons; split;
            [by auto using score_like_fin, series_mean_like, series_std_like,
               series_min_like, series_max_like, quantile4_like|]).
    by apply Forall_nil_2. }
  pose proof (dropna_score_like _ Hd) as Hfin.
  assert (Fin (INR (length (dropna l))) ∈ dropna (describe l)) as Hin.
  { apply dropna_elem. split; [left|done]. }
  destruct (dropna (describe l)) as [|a v]; [by apply elem_of_nil in Hin|].
  destruct (fsum_fin _ Hfin) as [s ->].
  rewrite fdiv_Fin_nonzero by apply INR_pos_length. by eexists.
Qed.

(** After [clean], a column of [null_cols] that held numbers and nulls
    holds no null. *)
Lemma clean_leaves_no_null (df df' : frame) (c : string) (l : list fnum) :
  clean df = Some df' -> c ∈ null_cols -> column c df = Some l ->
  Forall score_like l ->
  exists l', column c df' = Some l' /\ Forall (fun a => is_nan a = false) l'.
Proof.
  intros Hrun Hc Hl Hlike. eexists. split.
  - by apply (clean_fills_with_col_avg df).
  - apply Forall_fmap, Forall_forall. intros a _. simpl.
    destruct (col_avg_fin l Hlike) as [v ->]. by destruct a.
Qed.

(** C1, the fill value the script computes.  For the column
    [10, null, 30] the mean of the non-null entries is 20, but
    [describe().mean()] averages the eight summary statistics (count 2,
    mean 20, std sqrt 200, min 10, quartiles 15, 20, 25, max 30), which
    gives (122 + sqrt 200) / 8, a value below 20; and [clean] writes that
    value, not 20, into the null of such a column. *)
Theorem fill_value_is_mean_of_describe :
  series_mean sample_column = Fin 20
  /\ col_avg sample_column = Fin ((122 + sqrt 200) / 8)
  /\ (122 + sqrt 200) / 8 < 20
  /\ col_avg sample_column <> Fin 20
  /\ (forall (df df' : frame) (c : string),
        clean df = Some df' -> c ∈ null_cols ->
        column c df = Some sample_column ->
        column c df' = Some [Fin 10; Fin ((122 + sqrt 200) / 8); Fin 30]).
Proof.
  assert (col_avg sample_column = Fin ((122 + sqrt 200) / 8)) as Hv.
  { unfold col_avg, series_mean. rewrite sample_describe.
    change (dropna _) with
      [Fin 2; Fin 20; Fin (sqrt 200); Fin 10; Fin 15; Fin 20; Fin 25; Fin 30].
    change (fsum _)
      with (Fin (0 + 2 + 20 + sqrt 200 + 10 + 15 + 20 + 25 + 30)).
    rewrite fdiv_Fin_nonzero by (simpl; lra). f_equal. simpl. lra. }
  split_and!; [apply sample_mean|exact Hv| | |].
  - pose proof (sqrt_def 200 ltac:(lra)) as Hd.
    pose proof (sqrt_pos 200) as Hp. nra.
  - rewrite Hv. intros [= E]. apply sqrt_200_not_38. lra.
  - intros df df' c Hrun Hc Hl.
    rewrite (clean_fills_with_col_avg df df' c _ Hrun Hc Hl), Hv.
    reflexivity.
Qed.

(** The fill value on [raw_table]: the null of [fiber] becomes
    (122 + sqrt 200) / 8. *)
Lemma raw_table_fiber_filled :
  column "fiber" raw_table = Some sample_column
  /\ exists df', clean raw_table = Some df'
       /\ column "fiber" df'
          = Some [Fin 10; Fin ((122 + sqrt 200) / 8); Fin 30].
Proof.
  split; [reflexivity|].
  destruct fill_value_is_mean_of_describe as (_ & _ & _ & _ & Hfill).
  eexists. split; [reflexivity|].
  apply (Hfill raw_table); [reflexivity|in_list|reflexivity].
Defined.

(** ** Frame: what a stage leaves alone *)

Lemma extends_insert (W : list string) (r : row) (c : string) (v : cell) :
  c ∈ W -> extends W r (<[c := v]> r).
Proof.
  intros Hc. split.
  - intros c' Hc'. apply lookup_insert_ne. by intros ->.
  - intros c' Hs. destruct (decide (c = c')) as [->|Hne].
    + rewrite lookup_insert_eq. by eexists.
    + by rewrite lookup_insert_ne.
Qed.

Lemma extends_trans (W : list string) (r1 r2 r3 : row) :
  extends W r1 r2 -> extends W r2 r3 -> extends W r1 r3.
Proof.
  intros [H1 H1'] [H2 H2']. split.
  - intros c Hc. by rewrite H2, H1.
  - intros c Hs. by apply H2', H1'.
Qed.

Lemma extends_weaken (W W' : list string) (r r' : row) :
  W ⊆ W' -> extends W r r' -> extends W' r r'.
Proof.
  intros Hsub [H1 H2]. split; [|done].
  intros c Hc. apply H1. intros Hin. by apply Hc, Hsub.
Qed.

Lemma Forall2_extends_trans (W : list string) (df1 df2 df3 : frame) :
  Forall2 (extends W) df1 df2 -> Forall2 (extends W) df2 df3 ->
  Forall2 (extends W) df1 df3.
Proof.
  intros H12. revert df3. induction H12 as [|r1 r2 df1 df2 Hr _ IH];
    intros df3 H23; inversion H23; subst; constructor.
  - by eapply extends_trans.
  - by apply IH.
Qed.

Lemma assign_extends (W : list string) (c : string)
    (f : row -> option cell) (df df' : frame) :
  c ∈ W -> assign c f df = Some df' -> Forall2 (extends W) df df'.
Proof.
  intros Hc Hrun%assign_rows. eapply Forall2_impl; [exact Hrun|].
  intros r r' (v & _ & ->). by apply extends_insert.
Qed.

Lemma assign_values_extends (W : list string) (c : string)
    (vals : list cell) (df df' : frame) :
  c ∈ W -> assign_values c vals df = Some df' -> Forall2 (extends W) df df'.
Proof.
  intros Hc. unfold assign_values.
  destruct (Nat.eqb_spec (length vals) (length df)) as [Hlen|]; [|done].
  intros [= <-]. revert vals Hlen.
  induction df as [|r df IH]; intros [|v vals] Hlen; try done.
  simpl. constructor; [by apply extends_insert|].
  apply IH. simpl in Hlen. lia.
Qed.

Lemma derive_densities_extends (df df' : frame) :
  derive_densities df = Some df' ->
  Forall2 (extends (per_1000cal <$> nutrients)) df df'.
Proof.
  intros Hrun%derive_densities_spec. eapply Forall2_impl; [exact Hrun|].
  intros r r' [Hframe Hval]. split; [done|].
  intros c Hs. destruct (decide (c ∈ per_1000cal <$> nutrients)) as [Hc|Hc].
  - apply list_elem_of_fmap in Hc as (n & -> & Hn).
    destruct (Hval n Hn) as (v & _ & ->). by eexists.
  - by rewrite Hframe.
Qed.

Section Stages.
Context `{Estimators}.

Lemma run_stage_extends (s : stage) (df df' : frame) :
  run_stage s df = Some df' -> Forall2 (extends (writes s)) df df'.
Proof.
  destruct s as [| | | |X|X|X]; simpl.
  - apply derive_densities_extends.
  - apply assign_extends. left.
  - unfold normalize. destruct (column _ df); [|done]. simpl.
    apply assign_extends. left.
  - apply assign_extends. left.
  - unfold add_kmeans. destruct (kmeans_fit_predict X); [|done]. simpl.
    apply assign_values_extends. left.
  - unfold add_dbscan. destruct (dbscan_fit_predict X); [|done]. simpl.
    apply assign_values_extends. left.
  - unfold add_pca. destruct (pca_fit_transform X) as [p|]; [|done]. simpl.
    destruct (assign_values "pca1" _ df) as [df1|] eqn:E1; [|done]. simpl.
    intros E2. eapply Forall2_extends_trans.
    + eapply assign_values_extends; [|exact E1]. left.
    + eapply assign_values_extends; [|exact E2]. right. left.
Qed.
End Stages.

Lemma writes_derived (X : list (list fnum)) (s : stage) :
  s ∈ stage_order X -> writes s ⊆ derived_cols.
Proof.
  intros Hs c Hc. unfold stage_order in Hs.
  repeat (apply elem_of_cons in Hs as [->|Hs]);
    try (by apply elem_of_nil in Hs);
    simpl in Hc; unfold derived_cols; simpl;
    repeat (apply elem_of_cons in Hc as [->|Hc]);
    try (by apply elem_of_nil in Hc);
    apply (bool_decide_unpack _); by vm_compute.
Qed.

Lemma derived_cols_fresh : NoDup (raw_nutrient_cols ++ derived_cols).
Proof. apply (bool_decide_unpack _). by vm_compute. Qed.

Lemma stage_extends_derived `{Estimators} (X : list (list fnum)) (s : stage)
    (df df' : frame) :
  s ∈ stage_order X -> run_stage s df = Some df' ->
  Forall2 (extends derived_cols) df df'.
Proof.
  intros Hs Hrun%run_stage_extends. eapply Forall2_impl; [exact Hrun|].
  intros r r'. apply extends_weaken. by eapply writes_derived.
Qed.

Lemma enrich_extends `{Estimators} (df df' : frame) :
  enrich df = Some df' -> Forall2 (extends derived_cols) df df'.
Proof.
  unfold enrich, cluster_analyzer. intros Hrun.
  destruct (derive_densities df) as [df1|] eqn:E1; [|done]. simpl in Hrun.
  destruct (add_health_score df1) as [df2|] eqn:E2; [|done]. simpl in Hrun.
  destruct (normalize df2) as [df3|] eqn:E3; [|done]. simpl in Hrun.
  destruct (add_health_label df3) as [df4|] eqn:E4; [|done]. simpl in Hrun.
  destruct (feature_matrix df4) as [X|]; [|done]. simpl in Hrun.
  destruct (scaler_fit_transform X) as [Xs|]; [|done]. simpl in Hrun.
  destruct (add_kmeans Xs df4) as [df5|] eqn:E5; [|done]. simpl in Hrun.
  destruct (add_dbscan Xs df5) as [df6|] eqn:E6; [|done]. simpl in Hrun.
  eapply Forall2_extends_trans;
    [apply (stage_extends_derived Xs Derive _ _ ltac:(in_list) E1)|].
  eapply Forall2_extends_trans;
    [apply (stage_extends_derived Xs Score _ _ ltac:(in_list) E2)|].
  eapply Forall2_extends_trans;
    [apply (stage_extends_derived Xs Normalize _ _ ltac:(in_list) E3)|].
  eapply Forall2_extends_trans;
    [apply (stage_extends_derived Xs Classify _ _ ltac:(in_list) E4)|].
  eapply Forall2_extends_trans;
    [apply (stage_extends_derived Xs (KMeansStage Xs) _ _
              ltac:(in_list) E5)|].
  eapply Forall2_extends_trans;
    [apply (stage_extends_derived Xs (DBSCANStage Xs) _ _
              ltac:(in_list) E6)|].
  apply (stage_extends_derived Xs (PCAStage Xs) _ _ ltac:(in_list) Hrun).
Qed.

(** C9.  The columns the stages after the cleaner assign are pairwise
    distinct and distinct from the raw nutrient columns; each stage
    (density derivation, scoring, normalization, classification, KMeans,
    DBSCAN, PCA) returns a table whose rows differ from the rows it
    received only in the columns that stage assigns, every other cell
    being kept and no column removed; and so does their whole run. *)
Theorem stages_only_add_columns `{Estimators} :
  NoDup (raw_nutrient_cols ++ derived_cols)
  /\ (forall X, concat (writes <$> stage_order X) = derived_cols)
  /\ (forall (s : stage) (df df' : frame),
        run_stage s df = Some df' ->
        Forall2 (extends (writes s)) df df')
  /\ (forall (df df' : frame),
        enrich df = Some df' -> Forall2 (extends derived_cols) df df').
Proof.
  split_and!.
  - apply derived_cols_fresh.
  - done.
  - apply run_stage_extends.
  - apply enrich_extends.
Qed.

(** ** Reporter: rounding before sorting *)

Lemma rint_below_half (x : R) (n : Z) :
  IZR n <= x < IZR n + 1 / 2 -> rint x = n.
Proof.
  intros Hx. unfold rint.
  rewrite (Zfloor_eq n x) by lra.
  destruct (Rlt_dec (x - IZR n) (1 / 2)); [done|lra].
Qed.

(** Two scores in the same lower half of a cell of width 10^-5 round to
    the same key. *)
Lemma round5_same_cell (x y : R) (n : Z) :
  IZR n <= x * 100000 < IZR n + 1 / 2 ->
  IZR n <= y * 100000 < IZR n + 1 / 2 ->
  round5 (Fin x) = Fin (IZR n / 100000)
  /\ round5 (Fin y) = Fin (IZR n / 100000).
Proof.
  intros Hx Hy. unfold round5.
  by rewrite (rint_below_half _ n Hx), (rint_below_half _ n Hy).
Qed.

Lemma report_two_meals (n1 n2 : string) (s1 s2 k : R) :
  round5 (Fin s1) = Fin k -> round5 (Fin s2) = Fin k ->
  report Healthy [meal n1 s1; meal n2 s2]
  = Some [printed n1 (Fin k); printed n2 (Fin k)].
Proof.
  intros H1 H2. unfold report.
  assert (where_label Healthy (round_frame [meal n1 s1; meal n2 s2])
          = Some (round_frame [meal n1 s1; meal n2 s2])) as -> by reflexivity.
  cbn [mbind option_bind].
  assert (mapM (select columns_to_show)
               (round_frame [meal n1 s1; meal n2 s2])
          = Some [printed n1 (round5 (Fin s1)); printed n2 (round5 (Fin s2))])
    as -> by reflexivity.
  cbn [mbind option_bind]. rewrite H1, H2. unfold sort_values_desc.
  assert (mapM (fun r => k0 ← assoc_num r "Health Score"; Some (k0, r))
               [printed n1 (Fin k); printed n2 (Fin k)]
          = Some [(Fin k, printed n1 (Fin k)); (Fin k, printed n2 (Fin k))])
    as -> by reflexivity.
  cbn [mbind option_bind fold_right insert_desc fst].
  unfold stays_before, fgeb. rewrite fleb_Fin_true by lra. reflexivity.
Qed.

(** ** Concrete rows *)

Lemma perfect_row_score : compute_health_score perfect_row = Some (Fin 7).
Proof.
  rewrite compute_health_score_sum.
  change (densities perfect_row) with (Some perfect_densities).
  simpl. by rewrite perfect_score.
Qed.

Lemma scored_perfect :
  add_health_score [perfect_row]
  = Some [<["health_score"%string := Num (Fin 7)]> perfect_row].
Proof.
  unfold add_health_score, assign. rewrite mapM_cons, perfect_row_score.
  reflexivity.
Qed.

(** A NaN density makes the score NaN. *)
Lemma health_score_nan (r : row) (acts : list fnum) :
  densities r = Some acts -> NaN ∈ acts -> compute_health_score r = Some NaN.
Proof.
  intros Hd Hin. rewrite compute_health_score_sum, Hd. simpl. f_equal.
  apply fold_fadd_has_nan.
  apply list_elem_of_lookup in Hin as [i Hi].
  pose proof (densities_length r acts Hd) as Hlen.
  assert (i < 7)%nat as Hlt by (rewrite <- Hlen; by eapply lookup_lt_Some).
  destruct ((snd <$> recommended_density_per_1000cal) !! i) as [rv|] eqn:Hrv.
  - apply list_elem_of_lookup. exists i.
    by rewrite (score_terms_lookup acts i NaN rv Hi Hrv).
  - apply lookup_ge_None in Hrv. simpl in Hrv. lia.
Qed.

Lemma water_derivable : derivable water.
Proof.
  intros c Hc. unfold nutrients in Hc. simpl in Hc.
  repeat (apply elem_of_cons in Hc as [->|Hc]); try (by eexists).
  by apply elem_of_nil in Hc.
Qed.

Lemma water_density (n : string) :
  n ∈ nutrients -> density n water = Some (Num NaN).
Proof.
  intros Hn. unfold nutrients in Hn. simpl in Hn.
  assert (Some (Num (fmul (fdiv (Fin 0) (Fin 0)) (Fin 1000)))
          = Some (Num NaN)) as <- by (by rewrite fdiv_zero_zero).
  repeat (apply elem_of_cons in Hn as [->|Hn]); try reflexivity.
  by apply elem_of_nil in Hn.
Qed.

(** C3, the claim as stated fails: the item [water], with zero calories
    and zero nutrients, goes through the deriver and the scorer and gets
    the score NaN, which is not [>= 0]. *)
Lemma water_health_score_is_nan :
  exists df1 df2,
    derive_densities [water] = Some df1
    /\ add_health_score df1 = Some df2
    /\ column "health_score" df2 = Some [NaN]
    /\ fleb (Fin 0) NaN = false.
Proof.
  destruct (derive_densities_total [water]) as [df1 H1].
  { constructor; [apply water_derivable|constructor]. }
  pose proof (derive_densities_spec _ _ H1) as Hspec.
  inversion Hspec as [|? r1 ? ? [_ Hval] Htl]; subst. inversion Htl; subst.
  assert (forall n, n ∈ nutrients -> get_num r1 (per_1000cal n) = Some NaN)
    as Hn.
  { intros n Hn. destruct (Hval n Hn) as (v & Hv & Hl).
    rewrite (water_density n Hn) in Hv. injection Hv as <-.
    unfold get_num. by rewrite Hl. }
  assert (densities r1 = Some (replicate 7 NaN)) as Hd.
  { apply mapM_Some. unfold recommended_density_per_1000cal. simpl.
    repeat (constructor; [apply Hn; unfold nutrients; simpl; in_list|]).
    constructor. }
  assert (compute_health_score r1 = Some NaN) as Hs.
  { apply (health_score_nan r1 _ Hd). left. }
  exists [r1], [<["health_score"%string := Num NaN]> r1]. split_and!.
  - done.
  - unfold add_health_score, assign. by rewrite mapM_cons, Hs.
  - unfold column. rewrite mapM_cons. unfold get_num.
    by rewrite lookup_insert_eq.
  - done.
Qed.

(** C2, the claim as stated fails: with sodium 2000 and total fat NaN
    exactly one of the two values is above its limit, and the label is
    Unhealthy, not Moderate. *)
Lemma one_above_other_nan_is_unhealthy :
  get_num salty_no_fat_row "sodium_per_1000cal" = Some (Fin 2000)
  /\ get_num salty_no_fat_row "total_fat_per_1000cal" = Some NaN
  /\ fgtb (Fin 2000) (Fin 1747.65) = true
  /\ fgtb NaN (Fin 42.66) = false
  /\ classify_health salty_no_fat_row = Some Unhealthy
  /\ classify_health salty_no_fat_row <> Some Moderate.
Proof.
  assert (classify_health salty_no_fat_row = Some Unhealthy) as Hc.
  { rewrite (classify_health_eq _ (Fin 2000) NaN); [|done|done|by eexists].
    f_equal. apply rule_cases. right. by right. }
  split_and!; try done.
  - unfold fgtb. apply fltb_Fin_true. lra.
  - by rewrite Hc.
Qed.

(** C4, the claim as stated fails: the scores 7, 6 and NaN have distinct
    maximum and minimum, and the row with the NaN score gets the
    normalized score NaN, which is not in [0, 1]. *)
Lemma nan_score_is_not_normalized :
  exists df',
    normalize scored_rows = Some df'
    /\ series_max [Fin 7; Fin 6; NaN] = Fin 7
    /\ series_min [Fin 7; Fin 6; NaN] = Fin 6
    /\ Fin 7 <> Fin 6
    /\ (df' !! 2%nat) ≫= (fun r' : row => r' !! "Health Score")
       = Some (Num NaN)
    /\ fleb (Fin 0) NaN = false.
Proof.
  eexists. split_and!.
  - reflexivity.
  - unfold series_max. change (dropna _) with [Fin 7; Fin 6].
    cbn [fold_left]. by rewrite fltb_Fin_false by lra.
  - unfold series_min. change (dropna _) with [Fin 7; Fin 6].
    cbn [fold_left]. by rewrite fltb_Fin_true by lra.
  - intros [= E]. lra.
  - reflexivity.
  - reflexivity.
Qed.

(** C7, the claim as stated fails: the sodium deviation grows from 0 to
    1000 with the other six densities fixed, and the score stays NaN. *)
Lemma score_stays_nan_when_a_density_is_nan :
  fltb (deviation (Fin 1747.65) 1747.65) (deviation (Fin 2747.65) 1747.65)
  = true
  /\ compute_health_score (no_sugar_row 1747.65) = Some NaN
  /\ compute_health_score (no_sugar_row 2747.65) = Some NaN
  /\ fltb NaN NaN = false.
Proof.
  split_and!; try done.
  - rewrite !deviation_cases. apply fltb_Fin_true.
    replace (1747.65 - 1747.65) with 0 by lra.
    replace (2747.65 - 1747.65) with 1000 by lra.
    rewrite Rabs_R0, Rabs_pos_eq; lra.
  - eapply health_score_nan; [reflexivity|]. in_list.
  - eapply health_score_nan; [reflexivity|]. in_list.
Qed.

(** ** The theorems at concrete rows *)

Lemma near_perfect_row_score :
  compute_health_score near_perfect_row = Some (Fin (13 / 2)).
Proof.
  rewrite compute_health_score_sum.
  change (densities near_perfect_row)
    with (Some [Fin 42.66; Fin 14.52; Fin 1748.65; Fin 5.95; Fin 5.69;
                Fin 70.30; Fin 459.51]).
  unfold fsum, score_terms.
  cbn [mbind option_bind recommended_density_per_1000cal fmap list_fmap snd
       zip_with fold_left].
  rewrite !score_term_at_rec, score_term_cases.
  replace (1748.65 - 1747.65) with 1 by lra.
  rewrite Rabs_pos_eq by lra. simpl. do 2 f_equal. lra.
Qed.

Lemma scored_pair :
  add_health_score [perfect_row; near_perfect_row]
  = Some [<["health_score"%string := Num (Fin 7)]> perfect_row;
          <["health_score"%string := Num (Fin (13 / 2))]> near_perfect_row].
Proof.
  unfold add_health_score, assign.
  rewrite !mapM_cons, perfect_row_score, near_perfect_row_score.
  reflexivity.
Qed.

(** The labels theorem at [salty_row]: sodium 2000, fat 40. *)
Lemma salty_row_is_moderate :
  get_num salty_row "sodium_per_1000cal" = Some (Fin 2000)
  /\ get_num salty_row "total_fat_per_1000cal" = Some (Fin 40)
  /\ classify_health salty_row = Some Moderate.
Proof.
  split; [reflexivity|]. split; [reflexivity|].
  destruct (classify_health_labels salty_row (Fin 2000) (Fin 40))
    as (l & Hl & _ & _ & _ & Hex);
    [reflexivity|reflexivity|by eexists|].
  rewrite Hl. f_equal. by apply Hex.
Defined.

(** The score theorem at the row that matches every recommendation. *)
Lemma perfect_row_scores_seven :
  densities perfect_row = Some perfect_densities
  /\ compute_health_score perfect_row
     = Some (fsum (score_terms perfect_densities))
  /\ fsum (score_terms perfect_densities) = Fin 7.
Proof.
  pose proof (health_score_is_sum_of_terms perfect_row perfect_densities
                eq_refl) as (Hsum & _ & _ & H7 & _).
  split; [reflexivity|]. split; [exact Hsum|]. by apply H7.
Defined.

(** The density theorem at the one-row table [burger]. *)
Lemma burger_densities :
  Forall derivable [burger]
  /\ exists df', derive_densities [burger] = Some df'
       /\ length df' = 1%nat.
Proof.
  assert (Forall derivable [burger]) as Hb
    by (constructor; [apply burger_derivable|constructor]).
  split; [exact Hb|].
  destruct (derived_density_is_raw_over_calories [burger] Hb)
    as (df' & Hd & Hrows).
  exists df'. split; [exact Hd|]. by apply Forall2_length in Hrows.
Defined.

(** Two rows with the same sodium and fat densities, other sugar,
    protein and calcium densities and one more column. *)
Lemma salty_rows_same_label :
  salty_row !! "sodium_per_1000cal" = salty_sweet_row !! "sodium_per_1000cal"
  /\ salty_row !! "total_fat_per_1000cal"
     = salty_sweet_row !! "total_fat_per_1000cal"
  /\ salty_row !! "sugar_per_1000cal" = Some (Num (Fin 3))
  /\ salty_sweet_row !! "sugar_per_1000cal" = Some (Num (Fin 90))
  /\ salty_row !! "item" = None
  /\ salty_sweet_row !! "item" = Some (Str "Milkshake")
  /\ classify_health salty_row = classify_health salty_sweet_row.
Proof.
  do 6 (split; [reflexivity|]).
  apply classify_health_reads_two_columns;
    [reflexivity|reflexivity|by eexists|by eexists].
Defined.

(** The range theorem on the scores 7 and 13/2: they are scaled to 1
    and 0. *)
Lemma scored_pair_normalized :
  add_health_score [perfect_row; near_perfect_row]
  = Some [<["health_score"%string := Num (Fin 7)]> perfect_row;
          <["health_score"%string := Num (Fin (13 / 2))]> near_perfect_row]
  /\ exists r1 r2,
       normalize
         [<["health_score"%string := Num (Fin 7)]> perfect_row;
          <["health_score"%string := Num (Fin (13 / 2))]> near_perfect_row]
       = Some [r1; r2]
       /\ r1 !! "Health Score" = Some (Num (Fin 1))
       /\ r2 !! "Health Score" = Some (Num (Fin 0)).
Proof.
  split; [apply scored_pair|].
  destruct (normalized_score_range _ _ scored_pair)
    as (scores & df' & Hc & Hn & Hrows).
  change (Some [Fin 7; Fin (13 / 2)] = Some scores) in Hc.
  injection Hc as <-.
  assert (series_max [Fin 7; Fin (13 / 2)] = Fin 7) as Hmax.
  { unfold series_max. change (dropna _) with [Fin 7; Fin (13 / 2)].
    cbn [fold_left]. by rewrite fltb_Fin_false by lra. }
  assert (series_min [Fin 7; Fin (13 / 2)] = Fin (13 / 2)) as Hmin.
  { unfold series_min. change (dropna _) with [Fin 7; Fin (13 / 2)].
    cbn [fold_left]. by rewrite fltb_Fin_true by lra. }
  rewrite Hmax, Hmin in Hrows.
  assert (Fin 7 <> Fin (13 / 2)) as Hne by (intros [= E]; lra).
  inversion Hrows as [|? r1 ? df1 (s1 & Hs1 & Hl1 & Hr1) Htl]; subst.
  inversion Htl as [|? r2 ? df2 (s2 & Hs2 & Hl2 & Hr2) Htl']; subst.
  inversion Htl'; subst.
  change (Some (Fin 7) = Some s1) in Hs1. injection Hs1 as <-.
  change (Some (Fin (13 / 2)) = Some s2) in Hs2. injection Hs2 as <-.
  destruct (Hr1 Hne eq_refl) as (v1 & Hv1 & _ & _ & H1).
  destruct (Hr2 Hne eq_refl) as (v2 & Hv2 & _ & H0 & _).
  exists r1, r2. split; [exact Hn|].
  rewrite Hl1, Hl2, Hv1, Hv2, (H1 eq_refl), (H0 eq_refl). done.
Defined.

(** The degenerate case on a table of one row. *)
Lemma single_score_is_not_normalized :
  add_health_score [perfect_row]
  = Some [<["health_score"%string := Num (Fin 7)]> perfect_row]
  /\ series_max [Fin 7] = series_min [Fin 7]
  /\ exists df',
       normalize [<["health_score"%string := Num (Fin 7)]> perfect_row]
       = Some df'
       /\ Forall (fun r' : row => r' !! "Health Score" = Some (Num NaN)) df'.
Proof.
  split; [apply scored_perfect|]. split; [reflexivity|].
  destruct (normalize_undefined_when_scores_equal _ _ scored_perfect)
    as (scores & df' & Hc & Hn & Hdeg).
  change (Some [Fin 7] = Some scores) in Hc. injection Hc as <-.
  exists df'. split; [exact Hn|]. by apply Hdeg.
Defined.

(** The frame theorem at the KMeans stage of [trivial_estimators]. *)
Lemma kmeans_stage_adds_one_column :
  @run_stage trivial_estimators (KMeansStage [[Fin 1]]) [burger]
  = Some [<["kmeans_cluster"%string := int_cell 0]> burger]
  /\ Forall2 (extends ["kmeans_cluster"%string]) [burger]
             [<["kmeans_cluster"%string := int_cell 0]> burger].
Proof.
  split; [reflexivity|].
  destruct (@stages_only_add_columns trivial_estimators) as (_ & _ & Hst & _).
  apply (Hst (KMeansStage [[Fin 1]])). reflexivity.
Defined.

(** * Further properties of the script *)

(** ** Cleaner *)

Lemma null_count_column (c : string) (df : frame) (l : list fnum) :
  column c df = Some l ->
  null_count c df = Some (length (List.filter is_nan l)).
Proof.
  intros Hl. apply column_rows in Hl. unfold null_count.
  assert (mapM (fun r : row => r !! c) df = Some (Num <$> l)) as ->.
  { apply mapM_Some. induction Hl as [|r a df l Ha _ IH]; [constructor|].
    rewrite fmap_cons. constructor; [|exact IH].
    unfold get_num in Ha. destruct (r !! c) as [[x|]|]; congruence. }
  simpl. f_equal. clear Hl. induction l as [|a l IH]; [done|].
  rewrite fmap_cons. simpl. destruct a; simpl; by rewrite IH.
Qed.

Lemma filter_is_nan_none (l : list fnum) :
  Forall (fun a => is_nan a = false) l -> List.filter is_nan l = [].
Proof. induction 1 as [|a l Ha _ IH]; [done|]. simpl. by rewrite Ha. Qed.

(** X1.  After [clean], the null count of each of the five imputed
    columns is zero, when the column held only numbers and nulls. *)
Theorem imputed_columns_have_no_null (df df' : frame) (c : string)
    (l : list fnum) :
  clean df = Some df' -> c ∈ null_cols -> column c df = Some l ->
  Forall score_like l ->
  null_count c df' = Some 0%nat.
Proof.
  intros Hrun Hc Hl Hlike.
  destruct (clean_leaves_no_null df df' c l Hrun Hc Hl Hlike)
    as (l' & Hl' & Hnn).
  rewrite (null_count_column c df' l' Hl').
  by rewrite (filter_is_nan_none l' Hnn).
Qed.

Lemma raw_table_no_null_fiber :
  column "fiber" raw_table = Some sample_column
  /\ Forall score_like sample_column
  /\ exists df', clean raw_table = Some df'
       /\ null_count "fiber" df' = Some 0%nat.
Proof.
  assert (Forall score_like sample_column) as Hlike.
  { unfold sample_column.
    repeat (apply Forall_cons; split; [first [by left|right; by eexists]|]).
    by apply Forall_nil_2. }
  split; [reflexivity|]. split; [exact Hlike|].
  eexists. split; [reflexivity|].
  apply (imputed_columns_have_no_null raw_table _ "fiber" sample_column);
    [reflexivity|in_list|reflexivity|exact Hlike].
Defined.

Lemma null_cols_avg_keys (df : frame) (avg : gmap string fnum) (c : string) :
  null_cols_avg df = Some avg -> c ∉ null_cols -> avg !! c = None.
Proof.
  intros Havg Hc.
  destruct (null_cols_avg_loop df null_cols ∅ avg Havg) as [_ Hout].
  by rewrite (Hout c Hc).
Qed.

(** X2.  Row by row, [clean] removes the three dropped columns, leaves
    every column outside the five imputed ones as it was (nulls
    included), and never changes a cell that is not null. *)
Theorem clean_changes_only_nulls_of_imputed_columns (df df' : frame) :
  clean df = Some df' ->
  Forall2 (fun r r' : row =>
             (forall c, c ∈ dropped_cols -> r' !! c = None)
             /\ (forall c, c ∉ dropped_cols -> c ∉ null_cols ->
                   r' !! c = r !! c)
             /\ (forall c v, c ∉ dropped_cols -> r !! c = Some v ->
                   isnull v = false -> r' !! c = Some v))
          df df'.
Proof.
  intros Hrun. destruct (clean_rows df df' Hrun) as (avg & Havg & Hrows).
  eapply Forall2_impl; [exact Hrows|]. intros r r' Hr. split_and!.
  - intros c Hc. by rewrite Hr, decide_True.
  - intros c Hd Hn. rewrite Hr, decide_False by done.
    unfold fill_cell. rewrite (null_cols_avg_keys df avg c Havg Hn).
    destruct (r !! c) as [[[]|]|]; done.
  - intros c v Hd Hv Hnull. rewrite Hr, decide_False, Hv by done.
    simpl. f_equal. unfold fill_cell.
    destruct v as [[]|]; try done; by destruct (avg !! c).
Qed.

Lemma raw_table_cleaned :
  exists df', clean raw_table = Some df'
    /\ Forall2 (fun r r' : row =>
                  r' !! "salad" = None /\ r' !! "sugar" = r !! "sugar")
               raw_table df'.
Proof.
  eexists. split; [reflexivity|].
  eapply Forall2_impl;
    [apply (clean_changes_only_nulls_of_imputed_columns raw_table);
     reflexivity|].
  intros r r' (Hdrop & Hkeep & _). split.
  - apply Hdrop. in_list.
  - apply Hkeep; apply (bool_decide_unpack _); by vm_compute.
Defined.

Lemma for_each_columns_is_Some (df : frame) (cols : list string)
    (acc : gmap string fnum) :
  is_Some (for_each (fun (acc : gmap string fnum) col =>
                       l ← column col df; Some (<[col := col_avg l]> acc))
                    cols acc)
  <-> forall c, c ∈ cols -> is_Some (column c df).
Proof.
  revert acc. induction cols as [|c cols IH]; intros acc.
  - split; [|by eexists]. intros _ c Hc. by apply elem_of_nil in Hc.
  - cbn [for_each]. destruct (column c df) as [l|] eqn:Hl; simpl.
    + rewrite IH. split.
      * intros Hall c' [->|Hc']%elem_of_cons; [by rewrite Hl|by apply Hall].
      * intros Hall c' Hc'. apply Hall. by right.
    + split; [by intros [? ?]|]. intros Hall.
      destruct (Hall c) as [l Hl']; [left|]. congruence.
Qed.

Lemma column_is_Some (c : string) (df : frame) :
  is_Some (column c df) <-> Forall (fun r => is_Some (get_num r c)) df.
Proof. unfold column. by rewrite mapM_is_Some. Qed.

Lemma drop_is_Some (cols : list string) (df : frame) :
  is_Some (drop cols df)
  <-> Forall (fun r : row => forall c, c ∈ cols -> is_Some (r !! c)) df.
Proof.
  unfold drop. rewrite mapM_is_Some. apply Forall_iff. intros r. simpl.
  destruct (forallb _ cols) eqn:E.
  - split; [|by eexists]. intros _ c Hc.
    rewrite forallb_forall in E. apply list_elem_of_In in Hc.
    specialize (E c Hc). by apply bool_decide_eq_true in E.
  - split; [by intros [? ?]|]. intros Hall. exfalso.
    assert (forallb (fun c => bool_decide (is_Some (r !! c))) cols = true)
      as E'; [|congruence].
    apply forallb_forall. intros c Hc. rewrite bool_decide_eq_true.
    by apply Hall, list_elem_of_In.
Qed.

(** X3.  [clean] raises exactly when some row lacks one of the three
    columns to drop or does not hold a number (or null) in one of the
    five columns to impute. *)
Theorem clean_succeeds_iff (df : frame) :
  is_Some (clean df)
  <-> Forall (fun r : row =>
                (forall c, c ∈ dropped_cols -> is_Some (r !! c))
                /\ (forall c, c ∈ null_cols -> is_Some (get_num r c)))
             df.
Proof.
  unfold clean, null_cols_avg.
  pose proof (for_each_columns_is_Some df null_cols ∅) as Havg.
  pose proof (drop_is_Some dropped_cols df) as Hdrop.
  rewrite Forall_and, <- Hdrop.
  assert ((forall c, c ∈ null_cols -> is_Some (column c df))
          <-> Forall (fun r : row =>
                        forall c, c ∈ null_cols -> is_Some (get_num r c)) df)
    as Hcols.
  { rewrite Forall_forall. split.
    - intros Hall r Hr c Hc. specialize (Hall c Hc).
      rewrite column_is_Some, Forall_forall in Hall. by apply Hall.
    - intros Hall c Hc. rewrite column_is_Some, Forall_forall.
      intros r Hr. by apply Hall. }
  rewrite <- Hcols, <- Havg.
  destruct (for_each _ null_cols ∅) as [avg|]; simpl.
  - destruct (drop dropped_cols df) as [df1|]; simpl.
    + split; [|by eexists]. intros _. split; by eexists.
    + split; [by intros [? ?]|]. by intros [[? ?] _].
  - split; [by intros [? ?]|]. by intros [_ [? ?]].
Qed.

Lemma dropna_all_nan (l : list fnum) :
  Forall (fun a => a = NaN) l -> dropna l = [].
Proof. induction 1 as [|a l -> _ IH]; [done|]. unfold dropna in *. by simpl. Qed.

(** X4.  A column without any non-null value is filled with 0: of the
    eight statistics of [describe()] only the count, 0, is not NaN. *)
Theorem all_null_column_is_filled_with_zero (l : list fnum) :
  Forall (fun a => a = NaN) l -> col_avg l = Fin 0.
Proof.
  intros Hl. pose proof (dropna_all_nan l Hl) as Hd.
  assert (describe l = [Fin (INR 0); NaN; NaN; NaN; NaN; NaN; NaN; NaN]) as Hdesc.
  { unfold describe, series_mean, series_std, series_min, series_max,
      quantile4. rewrite Hd.
    change (dropna []) with (@nil fnum).
    change (fsum []) with (Fin 0).
    change (fsum (List.map _ [])) with (Fin 0).
    change (fsort []) with (@nil fnum).
    rewrite (fdiv_zero_zero 0 (INR (length (@nil fnum)))) by done.
    replace (fdiv (Fin 0) (Fin (INR (length (@nil fnum) - 1)))) with NaN
      by (symmetry; by apply fdiv_zero_zero).
    reflexivity. }
  unfold col_avg, series_mean. rewrite Hdesc.
  change (dropna _) with [Fin (INR 0)].
  change (fsum [Fin (INR 0)]) with (Fin (0 + INR 0)).
  rewrite fdiv_Fin_nonzero by (simpl; lra). f_equal. simpl. lra.
Qed.

Lemma three_nulls_filled_with_zero :
  Forall (fun a => a = NaN) [NaN; NaN; NaN]
  /\ col_avg [NaN; NaN; NaN] = Fin 0.
Proof.
  assert (Forall (fun a => a = NaN) [NaN; NaN; NaN]) as H
    by (by repeat constructor).
  split; [exact H|]. by apply all_null_column_is_filled_with_zero.
Defined.

(** X5.  A column with exactly one non-null value [x] is filled with
    (1 + 6 x) / 7: the count 1, the mean, the minimum, the three
    quartiles and the maximum, all [x], are averaged; the standard
    deviation of one value is NaN and is skipped. *)
Theorem single_value_column_fill (l : list fnum) (x : R) :
  dropna l = [Fin x] -> col_avg l = Fin ((1 + 6 * x) / 7).
Proof.
  intros Hd.
  assert (series_mean [Fin x] = Fin ((0 + x) / INR 1)) as Hm.
  { unfold series_mean. change (dropna [Fin x]) with [Fin x].
    change (fsum [Fin x]) with (Fin (0 + x)).
    by rewrite fdiv_Fin_nonzero by (simpl; lra). }
  assert (describe l
          = [Fin (INR 1); Fin ((0 + x) / INR 1); NaN; Fin x; Fin x; Fin x;
             Fin x; Fin x]) as Hdesc.
  { unfold describe.
    assert (series_mean l = Fin ((0 + x) / INR 1)) as ->.
    { unfold series_mean. rewrite Hd.
      change (fsum [Fin x]) with (Fin (0 + x)).
      by rewrite fdiv_Fin_nonzero by (simpl; lra). }
    assert (series_std l = NaN) as ->.
    { unfold series_std. rewrite Hd, Hm.
      change (fsum _) with
        (Fin (0 + (x + - ((0 + x) / INR 1)) * (x + - ((0 + x) / INR 1)))).
      change (length [Fin x] - 1)%nat with 0%nat.
      rewrite fdiv_zero_zero; [done| |done]. simpl. field. }
    assert (series_min l = Fin x) as -> by (unfold series_min; by rewrite Hd).
    assert (series_max l = Fin x) as -> by (unfold series_max; by rewrite Hd).
    assert (forall k, quantile4 k l = Fin x) as Hq.
    { intros k. unfold quantile4. rewrite Hd.
      change (fsort [Fin x]) with [Fin x]. cbn [length].
      replace ((1 - 1) * k)%nat with 0%nat by lia. reflexivity. }
    by rewrite !Hq, Hd. }
  unfold col_avg, series_mean. rewrite Hdesc.
  change (dropna _)
    with [Fin (INR 1); Fin ((0 + x) / INR 1); Fin x; Fin x; Fin x; Fin x;
          Fin x].
  change (fsum _)
    with (Fin (0 + INR 1 + (0 + x) / INR 1 + x + x + x + x + x)).
  rewrite fdiv_Fin_nonzero by (simpl; lra). f_equal. simpl. field.
Qed.

Lemma lone_value_fill :
  dropna [NaN; Fin 8; NaN] = [Fin 8]
  /\ col_avg [NaN; Fin 8; NaN] = Fin ((1 + 6 * 8) / 7).
Proof.
  split; [reflexivity|]. by apply single_value_column_fill.
Defined.

(** ** Feature deriver *)

Lemma derive_densities_derivable (df df' : frame) :
  derive_densities df = Some df' -> Forall derivable df.
Proof.
  intros Hrun%derive_densities_spec.
  induction Hrun as [|r r' df df' [_ Hval] _ IH]; constructor; [|exact IH].
  intros c Hc.
  assert (forall n, n ∈ nutrients ->
            is_Some (get_num r n) /\ is_Some (get_num r "calories")) as Hn.
  { intros n Hn. destruct (Hval n Hn) as (v & Hv & _).
    destruct (density_value n r v Hv) as (raw & cal & -> & -> & _).
    split; by eexists. }
  apply elem_of_cons in Hc as [->|Hc].
  - apply (Hn "total_fat"%string). unfold nutrients. simpl. in_list.
  - by apply Hn.
Qed.

(** X6.  The deriver raises exactly when some row does not hold a number
    in [calories] or in one of the seven raw nutrient columns; a zero in
    [calories] is no error. *)
Theorem derive_densities_succeeds_iff (df : frame) :
  is_Some (derive_densities df) <-> Forall derivable df.
Proof.
  split.
  - intros [df' Hrun]. by eapply derive_densities_derivable.
  - apply derive_densities_total.
Qed.

(** ** Scorer, normalization and classifier after the deriver *)

Lemma derive_has_densities (df df1 : frame) :
  derive_densities df = Some df1 -> Forall has_densities df1.
Proof.
  intros Hrun%derive_densities_spec.
  eapply Forall2_right; [exact Hrun|].
  intros r r1 [_ Hval] n Hn. destruct (Hval n Hn) as (v & Hv & Hl).
  destruct (density_value n r v Hv) as (raw & cal & _ & _ & ->).
  unfold get_num. rewrite Hl. by eexists.
Qed.

Lemma has_densities_extends (W : list string) (r r' : row) :
  extends W r r' ->
  (forall n, n ∈ nutrients -> per_1000cal n ∉ W) ->
  has_densities r -> has_densities r'.
Proof.
  intros [Hframe _] HW Hr n Hn. unfold get_num.
  rewrite (Hframe _ (HW n Hn)). by apply Hr.
Qed.

Lemma has_densities_score (r : row) :
  has_densities r -> is_Some (compute_health_score r).
Proof.
  intros Hr. rewrite compute_health_score_sum.
  assert (is_Some (densities r)) as [acts ->]; [|by eexists].
  apply mapM_is_Some, Forall_forall. intros [n rv] Hn. simpl.
  apply Hr. unfold nutrients. apply list_elem_of_fmap.
  by exists (n, rv).
Qed.

Lemma has_densities_label (r : row) :
  has_densities r -> is_Some (classify_health r).
Proof.
  intros Hr.
  destruct (Hr "sodium"%string) as [s Hs]; [unfold nutrients; simpl; in_list|].
  destruct (Hr "total_fat"%string) as [f Hf];
    [unfold nutrients; simpl; in_list|].
  destruct (Hr "sugar"%string) as [g Hg]; [unfold nutrients; simpl; in_list|].
  rewrite (classify_health_eq r s f Hs Hf); [by eexists|].
  change (per_1000cal "sugar") with "sugar_per_1000cal"%string in Hg.
  unfold get_num in Hg. destruct (r !! "sugar_per_1000cal"); [by eexists|done].
Qed.

Lemma Forall_extends (W : list string) (df df' : frame) :
  Forall2 (extends W) df df' ->
  (forall n, n ∈ nutrients -> per_1000cal n ∉ W) ->
  Forall has_densities df -> Forall has_densities df'.
Proof.
  intros Hext HW. induction Hext as [|r r' df df' Hr _ IH]; intros Hd;
    [constructor|].
  apply Forall_cons in Hd as [Hr0 Hd]. constructor; [|by apply IH].
  by eapply has_densities_extends.
Qed.

Lemma densities_not_in (c : string) :
  c ∉ per_1000cal <$> nutrients ->
  forall n, n ∈ nutrients -> per_1000cal n ∉ [c].
Proof.
  intros Hc n Hn [E|Hin]%elem_of_cons.
  - apply Hc. rewrite <- E. by apply list_elem_of_fmap_2.
  - by apply elem_of_nil in Hin.
Qed.

(** X8.  Once the deriver has returned a table, scoring, normalization
    and classification return one too, with as many rows: no stage
    raises on a zero, an infinite or a NaN density. *)
Theorem stages_after_deriver_never_raise (df df1 : frame) :
  derive_densities df = Some df1 ->
  exists df2 df3 df4,
    add_health_score df1 = Some df2
    /\ normalize df2 = Some df3
    /\ add_health_label df3 = Some df4
    /\ length df4 = length df.
Proof.
  intros Hrun. pose proof (derive_has_densities _ _ Hrun) as Hd1.
  destruct (assign_total "health_score"
              (fun r => Num <$> compute_health_score r) df1) as [df2 H2].
  { eapply Forall_impl; [exact Hd1|]. intros r Hr.
    destruct (has_densities_score r Hr) as [s ->]. by eexists. }
  destruct (health_score_column df1 df2 H2) as (scores & Hc & _).
  destruct (normalize_rows df2 scores Hc) as (df3 & H3 & _).
  assert (Forall has_densities df3) as Hd3.
  { apply (Forall_extends ["Health Score"%string] df2).
    - apply (run_stage_extends (H := trivial_estimators) Normalize), H3.
    - apply densities_not_in. apply (bool_decide_unpack _). by vm_compute.
    - apply (Forall_extends ["health_score"%string] df1); [| |done].
      + by apply (assign_extends _ _ _ _ _ ltac:(in_list) H2).
      + apply densities_not_in. apply (bool_decide_unpack _). by vm_compute. }
  destruct (assign_total "health_label"
              (fun r => Str ∘ label_str <$> classify_health r) df3)
    as [df4 H4].
  { eapply Forall_impl; [exact Hd3|]. intros r Hr.
    destruct (has_densities_label r Hr) as [l ->]. by eexists. }
  exists df2, df3, df4. split_and!; try done.
  apply derive_densities_extends, Forall2_length in Hrun.
  apply assign_rows, Forall2_length in H2.
  apply (run_stage_extends (H := trivial_estimators) Normalize),
    Forall2_length in H3.
  apply assign_rows, Forall2_length in H4. congruence.
Qed.

Lemma water_goes_through :
  exists df1 df2 df3 df4,
    derive_densities [water] = Some df1
    /\ add_health_score df1 = Some df2
    /\ normalize df2 = Some df3
    /\ add_health_label df3 = Some df4
    /\ length df4 = 1%nat.
Proof.
  destruct (derive_densities_total [water]) as [df1 H1].
  { constructor; [apply water_derivable|constructor]. }
  destruct (stages_after_deriver_never_raise _ _ H1)
    as (df2 & df3 & df4 & H2 & H3 & H4 & Hlen).
  by exists df1, df2, df3, df4.
Defined.

Lemma nan_or_none (acts : list fnum) :
  NaN ∈ acts \/ Forall (fun a => is_nan a = false) acts.
Proof.
  induction acts as [|a acts [IH|IH]].
  - right. constructor.
  - left. by right.
  - destruct a; [right|right|right|left; left]; by constructor.
Qed.

(** X9.  The [health_score] of a row is NaN exactly when one of its seven
    densities is NaN; otherwise it is a number between 0 and 7, infinite
    densities included. *)
Theorem health_score_nan_iff (r : row) (acts : list fnum) :
  densities r = Some acts ->
  (compute_health_score r = Some NaN <-> NaN ∈ acts)
  /\ (NaN ∉ acts ->
      exists v, compute_health_score r = Some (Fin v) /\ 0 <= v <= 7).
Proof.
  intros Hd.
  assert (NaN ∉ acts ->
          exists v, compute_health_score r = Some (Fin v) /\ 0 <= v <= 7)
    as Hfin.
  { intros Hn. destruct (nan_or_none acts) as [Hin|Hall]; [done|].
    rewrite compute_health_score_sum, Hd. simpl.
    destruct (fold_fadd_bounds (score_terms acts) 0) as (s & Hs & Hb);
      [by apply score_terms_bounds|].
    assert (length (score_terms acts) = 7%nat) as Hlen.
    { unfold score_terms.
      rewrite length_zip_with, (densities_length r acts Hd). reflexivity. }
    rewrite Hlen in Hb. simpl in Hb.
    exists s. unfold fsum. rewrite Hs. split; [done|lra]. }
  split; [|exact Hfin]. split.
  - intros Hs. destruct (nan_or_none acts) as [Hin|Hall]; [done|].
    destruct Hfin as (v & Hv & _); [|congruence].
    intros Hin. rewrite Forall_forall in Hall. by specialize (Hall NaN Hin).
  - by apply health_score_nan.
Qed.

Lemma no_sugar_row_score_is_nan :
  densities (no_sugar_row 2000)
  = Some [Fin 42.66; Fin 14.52; Fin 2000; Fin 5.95; NaN; Fin 70.30;
          Fin 459.51]
  /\ compute_health_score (no_sugar_row 2000) = Some NaN.
Proof.
  split; [reflexivity|].
  apply (health_score_nan_iff (no_sugar_row 2000) _ eq_refl). in_list.
Defined.

Lemma fold_fadd_zero_iff (ts : list fnum) (x y : R) :
  Forall (fun t => exists v, t = Fin v /\ 0 <= v <= 1) ts ->
  fold_left fadd ts (Fin x) = Fin y ->
  x <= y /\ (y = x <-> Forall (fun t => t = Fin 0) ts).
Proof.
  intros Hts. revert x.
  induction Hts as [|t ts (v & -> & Hv) _ IH]; intros x Hy.
  - simpl in Hy. injection Hy as ->. split; [lra|]. split; [constructor|done].
  - simpl in Hy. destruct (IH _ Hy) as [Hle Hiff]. split; [lra|]. split.
    + intros ->. assert (v = 0) as -> by lra. constructor; [done|].
      apply Hiff. lra.
    + intros [Hv0 Hall]%Forall_cons. injection Hv0 as ->.
      apply Hiff in Hall. lra.
Qed.

Lemma score_term_zero_iff (a : fnum) (rv : R) :
  score_term a rv = Fin 0 <-> is_inf a.
Proof.
  rewrite score_term_cases. unfold is_inf.
  destruct a as [x| | |]; split; try done; auto.
  - intros [= E]. pose proof (score_term_range x rv). lra.
  - intros [|]; done.
  - intros [|]; done.
Qed.

Lemma score_terms_zero_iff (acts : list fnum) (rvs : list R) :
  length acts = length rvs ->
  Forall (fun t => t = Fin 0) (zip_with score_term acts rvs)
  <-> Forall is_inf acts.
Proof.
  revert rvs. induction acts as [|a acts IH]; intros [|rv rvs] Hlen;
    try done.
  simpl. rewrite !Forall_cons, score_term_zero_iff, IH; [done|].
  simpl in Hlen. lia.
Qed.

(** X10.  For a row without NaN density the [health_score] is 0, the
    least possible value, exactly when all seven densities are infinite
    (as for an item with zero calories and positive nutrients). *)
Theorem health_score_zero_iff_all_infinite (r : row) (acts : list fnum) :
  densities r = Some acts -> NaN ∉ acts ->
  (compute_health_score r = Some (Fin 0) <-> Forall is_inf acts).
Proof.
  intros Hd Hn. destruct (nan_or_none acts) as [Hin|Hall]; [done|].
  rewrite compute_health_score_sum, Hd. simpl.
  pose proof (score_terms_bounds acts Hall) as Hb.
  destruct (fold_fadd_bounds (score_terms acts) 0 Hb) as (s & Hs & _).
  destruct (fold_fadd_zero_iff _ 0 s Hb Hs) as [_ Hiff].
  unfold fsum. rewrite Hs.
  rewrite <- (score_terms_zero_iff acts
                (snd <$> recommended_density_per_1000cal));
    [|by rewrite (densities_length r acts Hd)].
  fold (score_terms acts). rewrite <- Hiff. split.
  - by intros [= ->].
  - by intros ->.
Qed.

Lemma all_infinite_row_scores_zero :
  densities (density_row (replicate 7 PInf)) = Some (replicate 7 PInf)
  /\ compute_health_score (density_row (replicate 7 PInf)) = Some (Fin 0).
Proof.
  split; [reflexivity|].
  apply (health_score_zero_iff_all_infinite
           (density_row (replicate 7 PInf)) (replicate 7 PInf)).
  - reflexivity.
  - intros Hin. apply elem_of_replicate in Hin as [? _]. done.
  - apply Forall_replicate. by left.
Defined.

(** ** Normalization keeps the order of the scores *)

Lemma scores_fin_or_all_nan (l : list fnum) :
  Forall score_like l ->
  (exists x, Fin x ∈ l) \/ (forall a, a ∈ l -> a = NaN).
Proof.
  induction 1 as [|a l Ha _ [[x Hx]|IH]].
  - right. intros a Ha. by apply elem_of_nil in Ha.
  - left. exists x. by right.
  - destruct Ha as [->|[x ->]].
    + right. intros a [->|Ha]%elem_of_cons; [done|by apply IH].
    + left. exists x. left.
Qed.

(** X11.  After the scorer, when the maximum and the minimum score
    differ, normalization never inverts two numeric scores: of two rows,
    the one whose score is not smaller gets a ['Health Score'] that is
    not smaller. *)
Theorem normalization_preserves_order (df0 df df' : frame)
    (scores : list fnum) :
  add_health_score df0 = Some df ->
  column "health_score" df = Some scores ->
  normalize df = Some df' ->
  series_max scores <> series_min scores ->
  forall (i j : nat) (r1 r2 r1' r2' : row) (x y : R),
    df !! i = Some r1 -> df !! j = Some r2 ->
    df' !! i = Some r1' -> df' !! j = Some r2' ->
    get_num r1 "health_score" = Some (Fin x) ->
    get_num r2 "health_score" = Some (Fin y) ->
    x <= y ->
    exists u v,
      r1' !! "Health Score" = Some (Num u)
      /\ r2' !! "Health Score" = Some (Num v)
      /\ fleb u v = true.
Proof.
  intros Hrun Hc Hn Hne i j r1 r2 r1' r2' x y Hi Hj Hi' Hj' Hx Hy Hxy.
  destruct (health_score_column _ _ Hrun) as (scores' & Hc' & Hl).
  assert (scores' = scores) as -> by congruence.
  destruct (normalize_rows df scores Hc) as (df'' & Hn' & Hrows).
  assert (df'' = df') as -> by congruence.
  destruct (scores_fin_or_all_nan scores Hl) as [[x0 Hx0]|Hall].
  2: { destruct (series_min_max_all_nan scores Hall) as [Hmin Hmax].
       by rewrite Hmin, Hmax in Hne. }
  destruct (series_min_max scores x0 Hl Hx0)
    as (lo & hi & Hlo & Hhi & _ & _ & Hb).
  rewrite Hlo, Hhi in *.
  assert (lo < hi) as Hlt.
  { specialize (Hb x0 Hx0). destruct (Req_dec lo hi) as [->|]; [done|lra]. }
  destruct (Forall2_lookup_lr _ _ _ _ _ _ Hrows Hi Hi')
    as (s1 & _ & Hs1 & ->).
  destruct (Forall2_lookup_lr _ _ _ _ _ _ Hrows Hj Hj')
    as (s2 & _ & Hs2 & ->).
  assert (s1 = Fin x) as -> by congruence.
  assert (s2 = Fin y) as -> by congruence.
  exists (scaled (Fin x) (Fin lo) (Fin hi)), (scaled (Fin y) (Fin lo) (Fin hi)).
  rewrite !lookup_insert_eq. split_and!; try done.
  unfold scaled. simpl fsub. rewrite !fdiv_Fin_nonzero by lra.
  apply fleb_Fin_true. unfold Rdiv. apply Rmult_le_compat_r; [|lra].
  apply Rlt_le, Rinv_0_lt_compat. lra.
Qed.

Lemma scored_pair_keeps_order :
  exists df' u v,
    normalize
      [<["health_score"%string := Num (Fin 7)]> perfect_row;
       <["health_score"%string := Num (Fin (13 / 2))]> near_perfect_row]
    = Some df'
    /\ (df' !! 1%nat) ≫= (fun r : row => r !! "Health Score")
       = Some (Num u)
    /\ (df' !! 0%nat) ≫= (fun r : row => r !! "Health Score")
       = Some (Num v)
    /\ fleb u v = true.
Proof.
  assert (series_max [Fin 7; Fin (13 / 2)] <> series_min [Fin 7; Fin (13 / 2)])
    as Hne.
  { unfold series_max, series_min.
    change (dropna _) with [Fin 7; Fin (13 / 2)]. cbn [fold_left].
    rewrite fltb_Fin_false, fltb_Fin_true by lra. intros [= E]. lra. }
  assert (column "health_score"
            [<["health_score"%string := Num (Fin 7)]> perfect_row;
             <["health_score"%string := Num (Fin (13 / 2))]>
               near_perfect_row]
          = Some [Fin 7; Fin (13 / 2)]) as Hcol by reflexivity.
  destruct (normalize_rows _ _ Hcol) as (df' & Hn & Hrows).
  inversion Hrows as [|? a ? ? _ Htl]; subst.
  inversion Htl as [|? b ? ? _ Htl']; subst. inversion Htl'; subst.
  destruct (normalization_preserves_order
              [perfect_row; near_perfect_row] _ _ [Fin 7; Fin (13 / 2)]
              scored_pair Hcol Hn Hne 1%nat 0%nat
              (<["health_score"%string := Num (Fin (13 / 2))]>
                 near_perfect_row)
              (<["health_score"%string := Num (Fin 7)]> perfect_row)
              b a (13 / 2) 7)
    as (u & v & Hu & Hv & Huv); try reflexivity; [lra|].
  exists [a; b], u, v. split; [exact Hn|].
  split; [exact Hu|]. split; [exact Hv|exact Huv].
Defined.

(** ** Classifier *)

(** X12.  The classifier raises exactly when the row lacks a number in
    the sodium or total-fat density column or lacks the sugar density
    column, which it reads without using it. *)
Theorem classify_health_succeeds_iff (r : row) :
  is_Some (classify_health r)
  <-> is_Some (get_num r "sodium_per_1000cal")
      /\ is_Some (get_num r "total_fat_per_1000cal")
      /\ is_Some (r !! "sugar_per_1000cal").
Proof.
  split.
  - unfold classify_health. intros [l Hl].
    destruct (get_num r "sodium_per_1000cal") as [s|]; [|done].
    destruct (get_num r "total_fat_per_1000cal") as [f|]; [|done].
    destruct (r !! "sugar_per_1000cal") as [g|]; [|done].
    split_and!; by eexists.
  - intros ([s Hs] & [f Hf] & Hg).
    rewrite (classify_health_eq r s f Hs Hf Hg). by eexists.
Qed.

Lemma filter_marks {A : Type} (f : A -> bool) (l : list A) :
  fst <$> List.filter snd ((fun r => (r, f r)) <$> l) = List.filter f l.
Proof.
  induction l as [|a l IH]; [done|].
  rewrite fmap_cons. cbn [List.filter snd]. destruct (f a).
  - rewrite fmap_cons. cbn [fst]. by rewrite IH.
  - exact IH.
Qed.

Lemma has_label_where (l : label) (df : frame) :
  Forall (fun r : row => is_Some (r !! "health_label")) df ->
  where_label l df = Some (List.filter (has_label l) df).
Proof.
  intros Hall. unfold where_label.
  assert (mapM (fun r : row =>
                  v ← r !! "health_label";
                  Some (r, match v with
                           | Str s => String.eqb s (label_str l)
                           | Num _ => false
                           end)) df
          = Some ((fun r => (r, has_label l r)) <$> df)) as ->.
  { apply mapM_Some. induction Hall as [|r df [v Hv] _ IH]; [constructor|].
    rewrite fmap_cons. constructor; [|exact IH].
    unfold has_label. rewrite Hv. simpl. by destruct v. }
  cbn [mbind option_bind]. f_equal. apply filter_marks.
Qed.

Lemma add_health_label_rows (df df' : frame) :
  add_health_label df = Some df' ->
  Forall (fun r : row =>
            exists l, r !! "health_label" = Some (Str (label_str l))) df'.
Proof.
  intros Hrun%assign_rows. eapply Forall2_right; [exact Hrun|].
  intros r r' (v & Hv & ->). rewrite lookup_insert_eq.
  destruct (classify_health r) as [l|]; [|done].
  exists l. simpl in Hv. by injection Hv as <-.
Qed.

Lemma label_filters_partition (df : frame) :
  Forall (fun r : row =>
            exists l, r !! "health_label" = Some (Str (label_str l))) df ->
  List.filter (has_label Healthy) df
  ++ List.filter (has_label Moderate) df
  ++ List.filter (has_label Unhealthy) df ≡ₚ df.
Proof.
  induction 1 as [|r df [l Hl] _ IH]; [done|].
  cbn [List.filter].
  assert (has_label Healthy r = match l with Healthy => true | _ => false end
          /\ has_label Moderate r
             = match l with Moderate => true | _ => false end
          /\ has_label Unhealthy r
             = match l with Unhealthy => true | _ => false end)
    as (-> & -> & ->)
    by (unfold has_label; rewrite Hl; by destruct l).
  destruct l.
  - rewrite <- app_comm_cons. by rewrite IH.
  - rewrite <- app_comm_cons, <- Permutation_middle. by rewrite IH.
  - rewrite app_assoc, <- Permutation_middle, <- app_assoc.
    by rewrite IH.
Qed.

(** X13.  On the table the classifier returns, the three label filters
    of the report never raise and split the rows into three groups that
    together are the whole table, each row in exactly one group. *)
Theorem labels_partition_the_table (df df' : frame) :
  add_health_label df = Some df' ->
  (forall l, where_label l df' = Some (List.filter (has_label l) df'))
  /\ List.filter (has_label Healthy) df'
     ++ List.filter (has_label Moderate) df'
     ++ List.filter (has_label Unhealthy) df' ≡ₚ df'
  /\ Forall (fun r : row =>
               (if has_label Healthy r then 1 else 0)
               + (if has_label Moderate r then 1 else 0)
               + (if has_label Unhealthy r then 1 else 0) = 1)%nat df'.
Proof.
  intros Hrun%add_health_label_rows.
  assert (Forall (fun r : row => is_Some (r !! "health_label")) df') as Hsome.
  { eapply Forall_impl; [exact Hrun|]. intros r [l ->]. by eexists. }
  split_and!; [intros l; by apply has_label_where| |].
  - by apply label_filters_partition.
  - eapply Forall_impl; [exact Hrun|]. intros r [l Hl].
    unfold has_label. rewrite Hl. by destruct l.
Qed.

Lemma labelled_pair_partition :
  exists df' h m u,
    add_health_label [salty_row; perfect_row] = Some df'
    /\ where_label Healthy df' = Some h
    /\ where_label Moderate df' = Some m
    /\ where_label Unhealthy df' = Some u
    /\ h ++ m ++ u ≡ₚ df'.
Proof.
  eexists.
  destruct (labels_partition_the_table [salty_row; perfect_row] _ eq_refl)
    as (Hw & Hp & _).
  do 3 eexists. split; [reflexivity|].
  split; [apply Hw|]. split; [apply Hw|]. split; [apply Hw|]. exact Hp.
Defined.

(** ** Reporter: rounding *)

Lemma rint_cases (x : R) :
  let f := Zfloor x in
  IZR f <= x < IZR f + 1
  /\ ((rint x = f /\ x - IZR f <= 1 / 2
       /\ (x - IZR f = 1 / 2 -> Z.even f = true))
      \/ (rint x = (f + 1)%Z /\ 1 / 2 <= x - IZR f
          /\ (x - IZR f = 1 / 2 -> Z.even f = false))).
Proof.
  intros f. split; [apply Zfloor_bound|]. unfold rint. fold f.
  destruct (Rlt_dec (x - IZR f) (1 / 2)) as [Hlt|Hge].
  - left. split_and!; [done|lra|lra].
  - destruct (Rlt_dec (1 / 2) (x - IZR f)) as [Hgt|Hle].
    + right. split_and!; [done|lra|lra].
    + destruct (Z.even f) eqn:E.
      * left. split_and!; [done|lra|done].
      * right. split_and!; [done|lra|done].
Qed.

Lemma rint_error (x : R) : - (1 / 2) <= IZR (rint x) - x <= 1 / 2.
Proof.
  destruct (rint_cases x) as [Hb [(-> & Hd & _)|(-> & Hd & _)]].
  - lra.
  - rewrite plus_IZR. lra.
Qed.

Lemma rint_IZR (n : Z) : rint (IZR n) = n.
Proof. apply rint_below_half. lra. Qed.

Lemma rint_mono (x y : R) : x <= y -> (rint x <= rint y)%Z.
Proof.
  intros Hxy.
  destruct (rint_cases x) as [Hbx Hx], (rint_cases y) as [Hby Hy].
  assert (Zfloor x <= Zfloor y)%Z as Hf by (apply Zfloor_lub; lra).
  destruct (Z.eq_dec (Zfloor x) (Zfloor y)) as [E|Hne].
  - rewrite E in *.
    destruct Hx as [(-> & _)|(-> & Hdx & Hox)],
      Hy as [(-> & Hdy & Hey)|(-> & _)]; try lia.
    assert (y - IZR (Zfloor y) = 1 / 2) as Hy2 by lra.
    assert (x - IZR (Zfloor y) = 1 / 2) as Hx2 by lra.
    rewrite (Hey Hy2) in Hox. by specialize (Hox Hx2).
  - destruct Hx as [(-> & _)|(-> & _)], Hy as [(-> & _)|(-> & _)]; lia.
Qed.

(** X14.  [round(5)] moves a number by less than one unit of the fifth
    decimal, leaves infinities and NaN as they are, and leaves every
    integer (such as a calorie count) unchanged. *)
Theorem round5_error_bound :
  (forall x, exists y, round5 (Fin x) = Fin y /\ Rabs (y - x) < 1 / 100000)
  /\ (forall n, round5 (Fin (IZR n)) = Fin (IZR n))
  /\ round5 PInf = PInf /\ round5 NInf = NInf /\ round5 NaN = NaN.
Proof.
  split_and!; try reflexivity.
  - intros x. eexists. split; [reflexivity|].
    pose proof (rint_error (x * 100000)) as He.
    apply Rabs_def1; lra.
  - intros n. simpl. f_equal.
    replace (IZR n * 100000) with (IZR (n * 100000)) by (by rewrite mult_IZR).
    rewrite rint_IZR, mult_IZR. field.
Qed.

(** X15.  Rounding twice is rounding once. *)
Theorem round5_idempotent (a : fnum) : round5 (round5 a) = round5 a.
Proof.
  destruct a as [x| | |]; try reflexivity. simpl. f_equal.
  replace (IZR (rint (x * 100000)) / 100000 * 100000)
    with (IZR (rint (x * 100000))) by field.
  by rewrite rint_IZR.
Qed.

(** X16.  Rounding never inverts an order: if [a <= b] as floats then
    [round(a) <= round(b)], so a sort on the rounded score differs from a
    sort on the exact score only by ties. *)
Theorem round5_monotone (a b : fnum) :
  fleb a b = true -> fleb (round5 a) (round5 b) = true.
Proof.
  destruct a as [x| | |], b as [y| | |]; try done.
  intros Hxy%fleb_Fin. apply fleb_Fin_true.
  assert (rint (x * 100000) <= rint (y * 100000))%Z as Hr
    by (apply rint_mono; lra).
  apply IZR_le in Hr. lra.
Qed.

Lemma round5_keeps_order_of_two_scores :
  fleb (Fin 0.25) (Fin 0.75) = true
  /\ fleb (round5 (Fin 0.25)) (round5 (Fin 0.75)) = true.
Proof.
  assert (fleb (Fin 0.25) (Fin 0.75) = true) as H
    by (apply fleb_Fin_true; lra).
  split; [exact H|]. by apply round5_monotone.
Defined.

(** ** Reporter: sorting *)

Lemma stays_before_total (a b : fnum) :
  stays_before a b = false -> stays_before b a = true.
Proof.
  unfold stays_before, fgeb.
  destruct a as [x| | |], b as [y| | |]; simpl; try done.
  destruct (Rle_dec y x), (Rle_dec x y); try done. lra.
Qed.

Lemma stays_before_trans (a b c : fnum) :
  stays_before a b = true -> stays_before b c = true ->
  stays_before a c = true.
Proof.
  unfold stays_before, fgeb.
  destruct a as [x| | |], b as [y| | |], c as [z| | |]; simpl; try done.
  destruct (Rle_dec y x), (Rle_dec z y), (Rle_dec z x); try done. lra.
Qed.

Lemma insert_desc_perm {A : Type} (a : fnum * A) (l : list (fnum * A)) :
  insert_desc a l ≡ₚ a :: l.
Proof.
  induction l as [|b l IH]; [done|]. simpl.
  destruct (stays_before (fst a) (fst b)); [done|].
  rewrite IH. apply Permutation_swap.
Qed.

Lemma insert_desc_sorted {A : Type} (a : fnum * A) (l : list (fnum * A)) :
  StronglySorted report_order (fst <$> l) ->
  StronglySorted report_order (fst <$> insert_desc a l).
Proof.
  induction l as [|b l IH]; intros Hs.
  - simpl. repeat constructor.
  - rewrite fmap_cons in Hs. apply StronglySorted_inv in Hs as [Hl Hb].
    simpl. destruct (stays_before (fst a) (fst b)) eqn:E.
    + rewrite !fmap_cons. constructor.
      * constructor; done.
      * constructor; [done|]. eapply Forall_impl; [exact Hb|].
        intros k Hk. by eapply stays_before_trans.
    + rewrite fmap_cons. constructor; [by apply IH|].
      rewrite (insert_desc_perm a l), fmap_cons.
      constructor; [by apply stays_before_total|done].
Qed.

Lemma fold_insert_desc {A : Type} (l : list (fnum * A)) :
  fold_right insert_desc [] l ≡ₚ l
  /\ StronglySorted report_order (fst <$> fold_right insert_desc [] l).
Proof.
  induction l as [|a l [IHp IHs]]; [split; [done|constructor]|].
  simpl. split.
  - by rewrite insert_desc_perm, IHp.
  - by apply insert_desc_sorted.
Qed.

Lemma sort_values_desc_is_Some (c : string)
    (df : list (list (string * cell))) :
  is_Some (sort_values_desc c df)
  <-> Forall (fun r => is_Some (assoc_num r c)) df.
Proof.
  unfold sort_values_desc.
  assert (is_Some (mapM (fun r => k ← assoc_num r c; Some (k, r)) df)
          <-> Forall (fun r => is_Some (assoc_num r c)) df) as <-.
  { rewrite mapM_is_Some. apply Forall_iff. intros r. simpl.
    destruct (assoc_num r c); split; intros [? ?];
      first [done|by eexists]. }
  destruct (mapM _ df); simpl; split; intros [? ?];
    first [done|by eexists].
Qed.

(** What [sort_values_desc] sorts: the rows paired with their keys. *)
Lemma sort_values_desc_keyed (c : string) (df out : list (list (string * cell))) :
  sort_values_desc c df = Some out ->
  exists keyed,
    snd <$> keyed = df
    /\ Forall (fun p => assoc_num (snd p) c = Some (fst p)) keyed
    /\ out = snd <$> fold_right insert_desc [] keyed.
Proof.
  unfold sort_values_desc. intros Hout.
  destruct (mapM (fun r => k ← assoc_num r c; Some (k, r)) df)
    as [keyed|] eqn:Hk; [|done].
  simpl in Hout. injection Hout as <-. exists keyed.
  apply mapM_Some in Hk. split_and!; [| |done].
  - induction Hk as [|r p df keyed Hp _ IH]; [done|].
    destruct (assoc_num r c) as [k|]; [|done].
    simpl in Hp. injection Hp as <-. rewrite fmap_cons. simpl.
    by rewrite IH.
  - induction Hk as [|r p df keyed Hp _ IH]; [constructor|].
    destruct (assoc_num r c) as [k|] eqn:E; [|done].
    simpl in Hp. injection Hp as <-. by constructor.
Qed.

Lemma sort_values_desc_perm (c : string)
    (df out : list (list (string * cell))) :
  sort_values_desc c df = Some out -> out ≡ₚ df.
Proof.
  intros (keyed & <- & _ & ->)%sort_values_desc_keyed.
  by rewrite (proj1 (fold_insert_desc keyed)).
Qed.

(** X17.  [sort_values] on the key column raises exactly when a row has
    no number there; otherwise it returns the same rows in another order,
    their keys non-increasing and the NaN keys last. *)
Theorem sort_values_desc_sorts (c : string) (df : list (list (string * cell))) :
  (is_Some (sort_values_desc c df)
   <-> Forall (fun r => is_Some (assoc_num r c)) df)
  /\ (forall out, sort_values_desc c df = Some out ->
        out ≡ₚ df
        /\ exists keys, mapM (fun r => assoc_num r c) out = Some keys
                        /\ StronglySorted report_order keys).
Proof.
  split; [apply sort_values_desc_is_Some|].
  intros out Hout. split; [by eapply sort_values_desc_perm|].
  destruct (sort_values_desc_keyed c df out Hout)
    as (keyed & _ & Hkeys & ->).
  destruct (fold_insert_desc keyed) as [Hperm Hsorted].
  exists (fst <$> fold_right insert_desc [] keyed). split; [|done].
  rewrite <- Hperm in Hkeys. revert Hkeys.
  generalize (fold_right insert_desc [] keyed). clear. intros l Hl.
  apply mapM_Some. induction Hl as [|p l Hp _ IH]; [constructor|].
  rewrite !fmap_cons. by constructor.
Qed.

Lemma two_lines_sorted :
  exists out,
    sort_values_desc "Health Score"
      [printed "A" (Fin 1); printed "B" (Fin 2)] = Some out
    /\ out ≡ₚ [printed "A" (Fin 1); printed "B" (Fin 2)].
Proof.
  destruct (sort_values_desc_sorts "Health Score"
              [printed "A" (Fin 1); printed "B" (Fin 2)]) as [Hok Hsort].
  destruct (proj2 Hok) as [out Hout].
  { repeat constructor; by eexists. }
  exists out. split; [done|]. by apply Hsort.
Defined.

(** ** Reporter: the printed lines *)

Lemma where_label_filter (l : label) (df rows : frame) :
  where_label l df = Some rows -> rows = List.filter (has_label l) df.
Proof.
  intros Hw.
  assert (Forall (fun r : row => is_Some (r !! "health_label")) df) as Hall.
  { unfold where_label in Hw.
    destruct (mapM _ df) as [marks|] eqn:E; [|done].
    apply mapM_Some in E. clear Hw.
    induction E as [|r p df marks Hp _ IH]; constructor; [|exact IH].
    destruct (r !! "health_label"); [by eexists|done]. }
  rewrite (has_label_where l df Hall) in Hw. congruence.
Qed.

Lemma has_label_round (l : label) (r : row) :
  has_label l (round_cell <$> r) = has_label l r.
Proof.
  unfold has_label. rewrite lookup_fmap.
  by destruct (r !! "health_label") as [[]|].
Qed.

Lemma filter_round_frame (l : label) (df : frame) :
  List.filter (has_label l) (round_frame df)
  = round_frame (List.filter (has_label l) df).
Proof.
  unfold round_frame. induction df as [|r df IH]; [done|].
  cbn [List.map List.filter]. rewrite has_label_round.
  destruct (has_label l r); cbn [List.map]; by rewrite IH.
Qed.

Lemma select_line (cols : list string) (r : row)
    (line : list (string * cell)) :
  select cols r = Some line ->
  fst <$> line = cols
  /\ (forall c v, (c, v) ∈ line -> r !! c = Some v).
Proof.
  unfold select. intros Hs%mapM_Some.
  induction Hs as [|c p cols line Hp _ [IH1 IH2]].
  - split; [done|]. intros c v Hin. by apply elem_of_nil in Hin.
  - destruct (r !! c) as [v|] eqn:E; [|done]. simpl in Hp.
    injection Hp as <-. split; [by rewrite fmap_cons, IH1|].
    intros c' v' [[= -> ->]|Hin]%elem_of_cons; [done|by apply IH2].
Qed.

Lemma Forall2_right_elem {A B : Type} (P : A -> B -> Prop) (Q : B -> Prop)
    (l : list A) (k : list B) :
  Forall2 P l k -> (forall x y, x ∈ l -> P x y -> Q y) -> Forall Q k.
Proof.
  induction 1 as [|x y l k Hxy _ IH]; intros HPQ; constructor.
  - apply (HPQ x); [left|done].
  - apply IH. intros x' y' Hin. apply HPQ. by right.
Qed.

Lemma report_rows (l : label) (df : frame)
    (out : list (list (string * cell))) :
  report l df = Some out ->
  exists shown,
    Forall2 (fun r line => select columns_to_show r = Some line)
            (round_frame (List.filter (has_label l) df)) shown
    /\ out ≡ₚ shown.
Proof.
  unfold report. intros Hrep.
  destruct (where_label l (round_frame df)) as [rows|] eqn:Hw; [|done].
  simpl in Hrep.
  destruct (mapM (select columns_to_show) rows) as [shown|] eqn:Hs; [|done].
  simpl in Hrep. exists shown.
  apply where_label_filter in Hw. rewrite filter_round_frame in Hw.
  apply mapM_Some in Hs. rewrite Hw in Hs. split; [exact Hs|].
  by eapply sort_values_desc_perm.
Qed.

Lemma report_length (l : label) (df : frame)
    (out : list (list (string * cell))) :
  report l df = Some out ->
  length out = length (List.filter (has_label l) df).
Proof.
  intros (shown & Hs & Hperm)%report_rows.
  rewrite Hperm, <- (Forall2_length _ _ _ Hs).
  unfold round_frame. by rewrite length_map.
Qed.

(** X18.  Each line the report prints for a label comes from a row of the
    table that carries that label, shows exactly the ten listed columns
    in the listed order, each with the rounded value of the row's cell;
    and there are as many lines as rows with that label. *)
Theorem report_lines (l : label) (df : frame)
    (out : list (list (string * cell))) :
  report l df = Some out ->
  length out = length (List.filter (has_label l) df)
  /\ Forall (fun line =>
               fst <$> line = columns_to_show
               /\ exists r : row,
                    r ∈ df /\ has_label l r = true
                    /\ forall c v, (c, v) ∈ line ->
                         round_cell <$> r !! c = Some v)
            out.
Proof.
  intros Hrep. split; [by apply report_length|].
  destruct (report_rows l df out Hrep) as (shown & Hs & Hperm).
  rewrite Hperm. eapply Forall2_right_elem; [exact Hs|].
  intros rr line Hin Hsel.
  destruct (select_line _ _ _ Hsel) as [Hcols Hvals].
  split; [done|].
  unfold round_frame in Hin.
  apply list_elem_of_In, in_map_iff in Hin as (r & <- & Hr).
  apply filter_In in Hr as [Hr Hlab].
  exists r. split_and!; [by apply list_elem_of_In|done|].
  intros c v Hcv. rewrite <- lookup_fmap. by apply Hvals.
Qed.

Lemma report_of_two_meals :
  exists out,
    report Healthy [meal "A" 0.25; meal "B" 0.75] = Some out
    /\ length out = 2%nat.
Proof.
  assert (is_Some (report Healthy [meal "A" 0.25; meal "B" 0.75]))
    as [out Hout].
  { unfold report.
    assert (where_label Healthy (round_frame [meal "A" 0.25; meal "B" 0.75])
            = Some (round_frame [meal "A" 0.25; meal "B" 0.75]))
      as -> by reflexivity.
    cbn [mbind option_bind].
    assert (mapM (select columns_to_show)
                 (round_frame [meal "A" 0.25; meal "B" 0.75])
            = Some [printed "A" (round5 (Fin 0.25));
                    printed "B" (round5 (Fin 0.75))]) as -> by reflexivity.
    cbn [mbind option_bind].
    apply (sort_values_desc_is_Some "Health Score").
    repeat constructor; by eexists. }
  exists out. split; [done|].
  by destruct (report_lines Healthy _ out Hout) as [-> _].
Defined.

(** ** The whole run *)

Lemma Forall2_compose {A B C : Type} (P : A -> B -> Prop)
    (Q : B -> C -> Prop) (R : A -> C -> Prop) (l : list A) (k : list B)
    (m : list C) :
  (forall x y z, P x y -> Q y z -> R x z) ->
  Forall2 P l k -> Forall2 Q k m -> Forall2 R l m.
Proof.
  intros HPQ Hlk. revert m. induction Hlk as [|x y l k Hxy _ IH];
    intros m Hkm; inversion Hkm; subst; constructor; eauto.
Qed.

(** X19.  From the raw table to the table with clusters and projection,
    the script keeps the number and order of rows and never changes a
    cell outside the three dropped columns, the five imputed columns and
    the fourteen columns it assigns: [item], [calories], [sodium],
    [sugar] and the like reach the end as they were read. *)
Theorem pipeline_keeps_other_columns `{Estimators} (df df' : frame) :
  pipeline df = Some df' ->
  length df' = length df
  /\ Forall2 (fun r r' : row =>
                forall c, c ∉ dropped_cols -> c ∉ null_cols ->
                  c ∉ derived_cols -> r' !! c = r !! c)
             df df'.
Proof.
  unfold pipeline. intros Hrun.
  destruct (clean df) as [df1|] eqn:Hclean; [|done]. simpl in Hrun.
  destruct (clean_rows df df1 Hclean) as (avg & Havg & Hrows).
  pose proof (enrich_extends df1 df' Hrun) as Hext.
  split.
  - apply Forall2_length in Hrows. apply Forall2_length in Hext. congruence.
  - eapply Forall2_compose; [|exact Hrows|exact Hext].
    intros r r1 r' Hr [Hframe _] c Hd Hn Hder.
    rewrite (Hframe c Hder), Hr, decide_False by done.
    unfold fill_cell. rewrite (null_cols_avg_keys df avg c Havg Hn).
    destruct (r !! c) as [[[]|]|]; done.
Qed.

Lemma present_extends (V W : list string) (df df' : frame) :
  Forall2 (extends V) df df' ->
  Forall (present W) df -> Forall (present W) df'.
Proof.
  induction 1 as [|r r' df df' [_ Hkeep] _ IH]; intros Hp; [constructor|].
  apply Forall_cons in Hp as [Hr Hp]. constructor; [|by apply IH].
  intros c Hc. by apply Hkeep, Hr.
Qed.

Lemma present_app (V W : list string) (df : frame) :
  Forall (present V) df -> Forall (present W) df ->
  Forall (present (V ++ W)) df.
Proof.
  intros HV HW. rewrite Forall_forall in HV, HW. apply Forall_forall.
  intros r Hr c [Hc|Hc]%elem_of_app; [by apply HV|by apply HW].
Qed.

Lemma assign_present (c : string) (f : row -> option cell) (df df' : frame) :
  assign c f df = Some df' -> Forall (present [c]) df'.
Proof.
  intros Hrun%assign_rows. eapply Forall2_right; [exact Hrun|].
  intros r r' (v & _ & ->) c' Hc'. apply list_elem_of_singleton in Hc'.
  subst. rewrite lookup_insert_eq. by eexists.
Qed.

Lemma assign_values_present (c : string) (vals : list cell)
    (df df' : frame) :
  assign_values c vals df = Some df' -> Forall (present [c]) df'.
Proof.
  unfold assign_values.
  destruct (Nat.eqb_spec (length vals) (length df)) as [Hlen|]; [|done].
  intros [= <-]. revert vals Hlen.
  induction df as [|r df IH]; intros [|v vals] Hlen; try done.
  simpl. constructor; [|apply IH; simpl in Hlen; lia].
  intros c' Hc'. apply list_elem_of_singleton in Hc'. subst.
  rewrite lookup_insert_eq. by eexists.
Qed.

Lemma run_stage_present `{Estimators} (s : stage) (df df' : frame) :
  run_stage s df = Some df' -> Forall (present (writes s)) df'.
Proof.
  destruct s as [| | | |X|X|X]; cbn [run_stage writes].
  - intros Hrun%derive_densities_spec. eapply Forall2_right; [exact Hrun|].
    intros r r' [_ Hval] c Hc. fold nutrients in Hc.
    apply list_elem_of_fmap in Hc as (n & -> & Hn).
    destruct (Hval n Hn) as (v & _ & ->). by eexists.
  - apply assign_present.
  - unfold normalize. destruct (column _ df); [|done]. simpl.
    apply assign_present.
  - apply assign_present.
  - unfold add_kmeans. destruct (kmeans_fit_predict X); [|done]. simpl.
    apply assign_values_present.
  - unfold add_dbscan. destruct (dbscan_fit_predict X); [|done]. simpl.
    apply assign_values_present.
  - unfold add_pca. destruct (pca_fit_transform X) as [p|]; [|done]. simpl.
    destruct (assign_values "pca1" _ df) as [df1|] eqn:E1; [|done]. simpl.
    intros E2. apply (present_app ["pca1"%string] ["pca2"%string]).
    + eapply present_extends;
        [eapply (assign_values_extends ["pca2"%string]); [in_list|exact E2]|].
      by eapply assign_values_present.
    + by eapply assign_values_present.
Qed.

(** X20.  When the stages after the cleaner all succeed, every row of the
    final table holds each of the fourteen assigned columns (seven
    densities, [health_score], ['Health Score'], [health_label], the two
    cluster ids and the two projection coordinates), and the table has as
    many rows as before. *)
Theorem enrich_adds_all_columns `{Estimators} (df df' : frame) :
  enrich df = Some df' ->
  length df' = length df /\ Forall (present derived_cols) df'.
Proof.
  intros Hrun. split.
  { by apply enrich_extends, Forall2_length in Hrun. }
  unfold enrich, cluster_analyzer in Hrun.
  destruct (derive_densities df) as [df1|] eqn:E1; [|done]. simpl in Hrun.
  destruct (add_health_score df1) as [df2|] eqn:E2; [|done]. simpl in Hrun.
  destruct (normalize df2) as [df3|] eqn:E3; [|done]. simpl in Hrun.
  destruct (add_health_label df3) as [df4|] eqn:E4; [|done]. simpl in Hrun.
  destruct (feature_matrix df4) as [X|]; [|done]. simpl in Hrun.
  destruct (scaler_fit_transform X) as [Xs|]; [|done]. simpl in Hrun.
  destruct (add_kmeans Xs df4) as [df5|] eqn:E5; [|done]. simpl in Hrun.
  destruct (add_dbscan Xs df5) as [df6|] eqn:E6; [|done]. simpl in Hrun.
  pose proof (run_stage_present Derive _ _ E1) as P1.
  pose proof (run_stage_present Score _ _ E2) as P2.
  pose proof (run_stage_present Normalize _ _ E3) as P3.
  pose proof (run_stage_present Classify _ _ E4) as P4.
  pose proof (run_stage_present (KMeansStage Xs) _ _ E5) as P5.
  pose proof (run_stage_present (DBSCANStage Xs) _ _ E6) as P6.
  pose proof (run_stage_present (PCAStage Xs) _ _ Hrun) as P7.
  pose proof (run_stage_extends Score _ _ E2) as X2.
  pose proof (run_stage_extends Normalize _ _ E3) as X3.
  pose proof (run_stage_extends Classify _ _ E4) as X4.
  pose proof (run_stage_extends (KMeansStage Xs) _ _ E5) as X5.
  pose proof (run_stage_extends (DBSCANStage Xs) _ _ E6) as X6.
  pose proof (run_stage_extends (PCAStage Xs) _ _ Hrun) as X7.
  unfold derived_cols, stage_order.
  cbn [fmap list_fmap concat].
  repeat apply present_app.
  - eapply present_extends; [exact X7|]. eapply present_extends; [exact X6|].
    eapply present_extends; [exact X5|]. eapply present_extends; [exact X4|].
    eapply present_extends; [exact X3|]. eapply present_extends; [exact X2|].
    exact P1.
  - eapply present_extends; [exact X7|]. eapply present_extends; [exact X6|].
    eapply present_extends; [exact X5|]. eapply present_extends; [exact X4|].
    eapply present_extends; [exact X3|]. exact P2.
  - eapply present_extends; [exact X7|]. eapply present_extends; [exact X6|].
    eapply present_extends; [exact X5|]. eapply present_extends; [exact X4|].
    exact P3.
  - eapply present_extends; [exact X7|]. eapply present_extends; [exact X6|].
    eapply present_extends; [exact X5|]. exact P4.
  - eapply present_extends; [exact X7|]. eapply present_extends; [exact X6|].
    exact P5.
  - eapply present_extends; [exact X7|]. exact P6.
  - exact P7.
  - apply Forall_forall. intros r _ c Hc. by apply elem_of_nil in Hc.
Qed.

Lemma raw_table_runs :
  exists df',
    @pipeline trivial_estimators raw_table = Some df'
    /\ length df' = 3%nat
    /\ Forall2 (fun r r' : row => r' !! "item" = r !! "item") raw_table df'.
Proof.
  eexists. split; [reflexivity|].
  destruct (@pipeline_keeps_other_columns trivial_estimators raw_table _
              eq_refl) as [Hlen Hrows].
  split; [exact Hlen|].
  eapply Forall2_impl; [exact Hrows|]. intros r r' Hr.
  apply Hr; apply (bool_decide_unpack _); by vm_compute.
Defined.

Lemma burger_gets_all_columns :
  exists df',
    @enrich trivial_estimators [burger] = Some df'
    /\ length df' = 1%nat
    /\ Forall (present derived_cols) df'.
Proof.
  eexists. split; [reflexivity|].
  apply (@enrich_adds_all_columns trivial_estimators [burger]). reflexivity.
Defined.

(** ** Null report *)

(** X21.  For a column of a table with at least one row, the printed null
    percentage lies between 0 and 100, is 0 exactly when the column has
    no null and 100 exactly when every cell is null; on a table without
    rows the division raises. *)
Theorem null_percent_range (c : string) (df : frame) (n : nat) :
  null_count c df = Some n -> df <> [] ->
  (n <= length df)%nat
  /\ null_percent n 0 = None
  /\ exists p, null_percent n (length df) = Some p
               /\ 0 <= p <= 100
               /\ (p = 0 <-> n = 0%nat)
               /\ (p = 100 <-> n = length df).
Proof.
  intros Hn Hne. unfold null_count in Hn.
  destruct (mapM (fun r : row => r !! c) df) as [cells|] eqn:E; [|done].
  simpl in Hn. injection Hn as <-. apply length_mapM in E.
  pose proof (List.filter_length_le isnull cells) as Hle.
  rewrite <- E in Hle. set (n := length (List.filter isnull cells)) in *.
  clearbody n. split; [done|]. split; [done|].
  assert (0 < length df)%nat as Hpos by (destruct df; [done|simpl; lia]).
  unfold null_percent. destruct (Nat.eqb_spec (length df) 0) as [E0|_]; [lia|].
  eexists. split; [reflexivity|].
  assert (0 < INR (length df)) as Hlen by (apply lt_0_INR; lia).
  assert (0 <= INR n <= INR (length df)) as Hn
    by (split; [apply pos_INR|by apply le_INR]).
  assert (/ INR (length df) * INR (length df) = 1) as Hinv
    by (apply Rinv_l; lra).
  assert (0 < / INR (length df)) as Hip by (by apply Rinv_0_lt_compat).
  unfold Rdiv. split_and!.
  - nra.
  - nra.
  - split.
    + intros Hp. apply INR_eq. simpl. nra.
    + intros ->. simpl. lra.
  - split.
    + intros Hp. apply INR_eq. nra.
    + intros ->. nra.
Qed.

Lemma raw_table_fiber_nulls :
  null_count "fiber" raw_table = Some 1%nat
  /\ exists p, null_percent 1 (length raw_table) = Some p /\ 0 <= p <= 100.
Proof.
  split; [reflexivity|].
  destruct (null_percent_range "fiber" raw_table 1 eq_refl ltac:(done))
    as (_ & _ & p & Hp & Hr & _).
  by exists p.
Defined.

(** ** Row by row *)

Lemma mapM_app {A B : Type} (f : A -> option B) (l k : list A) :
  mapM f (l ++ k) = a ← mapM f l; b ← mapM f k; Some (a ++ b).
Proof.
  induction l as [|x l IH].
  - simpl. by destruct (mapM f k).
  - rewrite <- app_comm_cons, !mapM_cons, IH.
    destruct (f x); simpl; [|done].
    destruct (mapM f l); simpl; [|done]. by destruct (mapM f k).
Qed.

(** X22.  The deriver, the scorer and the classifier treat each row on
    its own: on a table made of two parts each returns the results of the
    parts put together, and raises if it raises on a part. *)
Theorem row_wise_stages (df1 df2 : frame) :
  derive_densities (df1 ++ df2)
  = (a ← derive_densities df1; b ← derive_densities df2; Some (a ++ b))
  /\ add_health_score (df1 ++ df2)
     = (a ← add_health_score df1; b ← add_health_score df2; Some (a ++ b))
  /\ add_health_label (df1 ++ df2)
     = (a ← add_health_label df1; b ← add_health_label df2; Some (a ++ b)).
Proof.
  split_and!.
  - rewrite !derive_densities_rows. apply mapM_app.
  - apply mapM_app.
  - apply mapM_app.
Qed.

(** ** From the raw table to the printed report *)

Lemma select_is_Some (cols : list string) (r : row) :
  present cols r -> is_Some (select cols r).
Proof.
  intros Hp. unfold select. apply mapM_is_Some, Forall_forall.
  intros c Hc. simpl. destruct (Hp c Hc) as [v ->]. by eexists.
Qed.

Lemma select_assoc_num (cols : list string) (r : row)
    (line : list (string * cell)) (c : string) (x : fnum) :
  select cols r = Some line -> c ∈ cols -> get_num r c = Some x ->
  assoc_num line c = Some x.
Proof.
  unfold select. intros Hs%mapM_Some Hc Hx.
  induction Hs as [|c0 p cols line Hp _ IH]; [by apply elem_of_nil in Hc|].
  destruct (r !! c0) as [v|] eqn:E; [|done]. simpl in Hp.
  injection Hp as <-. simpl.
  destruct (String.eqb_spec c0 c) as [->|Hne].
  - unfold get_num in Hx. rewrite E in Hx. by destruct v.
  - apply IH. apply elem_of_cons in Hc as [->|Hc]; done.
Qed.

Lemma printable_round (r : row) : printable r -> printable (round_cell <$> r).
Proof.
  intros (Hp & [x Hx] & l & Hl). split_and!.
  - intros c Hc. rewrite lookup_fmap. destruct (Hp c Hc) as [v ->].
    by eexists.
  - unfold get_num in *. rewrite lookup_fmap.
    destruct (r !! "Health Score") as [[y|]|]; first [done|by eexists].
  - exists l. by rewrite lookup_fmap, Hl.
Qed.

Lemma report_is_Some (l : label) (df : frame) :
  Forall printable df -> is_Some (report l df).
Proof.
  intros Hdf. unfold report.
  assert (Forall printable (round_frame df)) as Hr.
  { unfold round_frame. rewrite List.Forall_map.
    eapply Forall_impl; [exact Hdf|]. apply printable_round. }
  rewrite (has_label_where l (round_frame df)).
  2: { eapply Forall_impl; [exact Hr|]. intros r (_ & _ & l' & ->).
       by eexists. }
  cbn [mbind option_bind].
  assert (Forall printable (List.filter (has_label l) (round_frame df)))
    as Hf.
  { apply Forall_forall. intros r Hin%list_elem_of_In.
    apply filter_In in Hin as [Hin%list_elem_of_In _].
    rewrite Forall_forall in Hr. by apply Hr. }
  destruct (mapM (select columns_to_show)
              (List.filter (has_label l) (round_frame df)))
    as [shown|] eqn:Hs.
  2: { apply mapM_None, Exists_exists in Hs as (r & Hin & Hnone).
       rewrite Forall_forall in Hf. destruct (Hf r Hin) as (Hp & _).
       destruct (select_is_Some _ r Hp) as [? ?]. congruence. }
  cbn [mbind option_bind]. apply sort_values_desc_is_Some.
  apply mapM_Some in Hs. eapply Forall2_right_elem; [exact Hs|].
  intros r line Hin Hsel. rewrite Forall_forall in Hf.
  destruct (Hf r Hin) as (_ & [x Hx] & _).
  rewrite (select_assoc_num _ r line "Health Score" x Hsel); [by eexists| |done].
  unfold columns_to_show. in_list.
Qed.

Ltac not_in_list := apply (bool_decide_unpack _); by vm_compute.

Lemma lookup_through_extends (W : list string) (c : string)
    (Q : option cell -> Prop) (df df' : frame) :
  Forall2 (extends W) df df' -> c ∉ W ->
  Forall (fun r : row => Q (r !! c)) df ->
  Forall (fun r : row => Q (r !! c)) df'.
Proof.
  intros Hext Hc. induction Hext as [|r r' df df' [Hframe _] _ IH];
    intros HQ; [constructor|].
  apply Forall_cons in HQ as [Hr HQ]. constructor; [|by apply IH].
  by rewrite (Hframe c Hc).
Qed.

Lemma normalize_numeric (df df' : frame) :
  normalize df = Some df' ->
  Forall (fun r : row =>
            is_Some (match r !! "Health Score" with
                     | Some (Num x) => Some x
                     | _ => None
                     end)) df'.
Proof.
  unfold normalize. destruct (column "health_score" df); [|done]. simpl.
  intros Hrun%assign_rows. eapply Forall2_right; [exact Hrun|].
  intros r r' (v & Hv & ->). rewrite lookup_insert_eq.
  destruct (get_num r "health_score"); [|done].
  simpl in Hv. injection Hv as <-. by eexists.
Qed.

Lemma clean_keeps_item (df df1 : frame) :
  clean df = Some df1 ->
  Forall (fun r : row => is_Some (r !! "item")) df ->
  Forall (fun r : row => is_Some (r !! "item")) df1.
Proof.
  intros (avg & _ & Hrows)%clean_rows Hitem.
  induction Hrows as [|r r1 df df1 Hr _ IH]; [constructor|].
  apply Forall_cons in Hitem as [[v Hv] Hitem]. constructor; [|by apply IH].
  rewrite Hr, decide_False, Hv; [by eexists|].
  apply (bool_decide_unpack _). by vm_compute.
Qed.

Lemma pipeline_printable `{Estimators} (df df' : frame) :
  pipeline df = Some df' ->
  Forall (fun r : row => is_Some (r !! "item")) df ->
  length df' = length df /\ Forall printable df'.
Proof.
  unfold pipeline. intros Hrun Hitem.
  destruct (clean df) as [df1|] eqn:Hclean; [|done]. simpl in Hrun.
  pose proof (clean_keeps_item _ _ Hclean Hitem) as Hitem1.
  pose proof (enrich_extends df1 df' Hrun) as Hext.
  split.
  { destruct (clean_rows _ _ Hclean) as (avg & _ & Hrows).
    apply Forall2_length in Hrows. apply Forall2_length in Hext. congruence. }
  unfold enrich, cluster_analyzer in Hrun.
  destruct (derive_densities df1) as [df2|] eqn:E1; [|done]. simpl in Hrun.
  destruct (add_health_score df2) as [df3|] eqn:E2; [|done]. simpl in Hrun.
  destruct (normalize df3) as [df4|] eqn:E3; [|done]. simpl in Hrun.
  destruct (add_health_label df4) as [df5|] eqn:E4; [|done]. simpl in Hrun.
  destruct (feature_matrix df5) as [X|]; [|done]. simpl in Hrun.
  destruct (scaler_fit_transform X) as [Xs|]; [|done]. simpl in Hrun.
  destruct (add_kmeans Xs df5) as [df6|] eqn:E5; [|done]. simpl in Hrun.
  destruct (add_dbscan Xs df6) as [df7|] eqn:E6; [|done]. simpl in Hrun.
  pose proof (run_stage_extends Classify _ _ E4) as X4.
  pose proof (run_stage_extends (KMeansStage Xs) _ _ E5) as X5.
  pose proof (run_stage_extends (DBSCANStage Xs) _ _ E6) as X6.
  pose proof (run_stage_extends (PCAStage Xs) _ _ Hrun) as X7.
  cbn [writes] in X4, X5, X6, X7.
  (* the raw columns to show *)
  assert (Forall (present ["item"; "calories"; "total_fat"; "sat_fat";
                           "sodium"; "fiber"; "sugar"; "protein";
                           "calcium"]%string) df') as Hraw.
  { eapply present_extends; [exact Hext|].
    pose proof (derive_densities_derivable _ _ E1) as Hder.
    rewrite Forall_forall in Hder, Hitem1. apply Forall_forall.
    intros r Hr c Hc. apply elem_of_cons in Hc as [->|Hc];
      [by apply Hitem1|].
    destruct (Hder r Hr c) as [x Hx].
    - unfold nutrients. simpl.
      repeat (apply elem_of_cons in Hc as [->|Hc]; [in_list|]).
      by apply elem_of_nil in Hc.
    - unfold get_num in Hx. destruct (r !! c); [by eexists|done]. }
  (* the normalized score *)
  assert (Forall (fun r : row => is_Some (get_num r "Health Score")) df')
    as Hscore.
  { unfold get_num.
    set (Q := fun o : option cell =>
                is_Some (match o with Some (Num x) => Some x | _ => None end)).
    apply (lookup_through_extends _ "Health Score" Q _ _ X7); [not_in_list|].
    apply (lookup_through_extends _ "Health Score" Q _ _ X6); [not_in_list|].
    apply (lookup_through_extends _ "Health Score" Q _ _ X5); [not_in_list|].
    apply (lookup_through_extends _ "Health Score" Q _ _ X4); [not_in_list|].
    by apply (normalize_numeric df3). }
  (* the label *)
  assert (Forall (fun r : row =>
                    exists l, r !! "health_label" = Some (Str (label_str l)))
                 df') as Hlabel.
  { apply (lookup_through_extends _ "health_label"
             (fun o => exists l, o = Some (Str (label_str l))) _ _ X7);
      [not_in_list|].
    apply (lookup_through_extends _ "health_label"
             (fun o => exists l, o = Some (Str (label_str l))) _ _ X6);
      [not_in_list|].
    apply (lookup_through_extends _ "health_label"
             (fun o => exists l, o = Some (Str (label_str l))) _ _ X5);
      [not_in_list|].
    by apply add_health_label_rows in E4. }
  rewrite Forall_forall in Hraw, Hscore, Hlabel. apply Forall_forall.
  intros r Hr. split_and!; [|by apply Hscore|by apply Hlabel].
  intros c Hc. unfold columns_to_show in Hc.
  apply elem_of_cons in Hc as [->|Hc]; [apply (Hraw r Hr); in_list|].
  apply elem_of_cons in Hc as [->|Hc].
  - destruct (Hscore r Hr) as [x Hx]. unfold get_num in Hx.
    destruct (r !! "Health Score"); [by eexists|done].
  - apply (Hraw r Hr). by right.
Qed.

(** X23.  If the run from the raw table to the final table succeeds and
    every raw row has an [item], the three reports print without error
    and together have one line for each row of the raw table. *)
Theorem reports_print_every_row `{Estimators} (df df' : frame) :
  pipeline df = Some df' ->
  Forall (fun r : row => is_Some (r !! "item")) df ->
  exists h m u,
    report Healthy df' = Some h
    /\ report Moderate df' = Some m
    /\ report Unhealthy df' = Some u
    /\ (length h + length m + length u = length df)%nat.
Proof.
  intros Hrun Hitem.
  destruct (pipeline_printable df df' Hrun Hitem) as [Hlen Hp].
  destruct (report_is_Some Healthy df' Hp) as [h Hh].
  destruct (report_is_Some Moderate df' Hp) as [m Hm].
  destruct (report_is_Some Unhealthy df' Hp) as [u Hu].
  exists h, m, u. split_and!; try done.
  rewrite (report_length _ _ _ Hh), (report_length _ _ _ Hm),
    (report_length _ _ _ Hu), <- Hlen.
  assert (Forall (fun r : row =>
                    exists l, r !! "health_label" = Some (Str (label_str l)))
                 df') as Hlab.
  { eapply Forall_impl; [exact Hp|]. by intros r (_ & _ & Hl). }
  apply label_filters_partition, Permutation_length in Hlab.
  rewrite !length_app in Hlab. lia.
Qed.

Lemma raw_table_is_reported :
  exists df' h m u,
    @pipeline trivial_estimators raw_table = Some df'
    /\ report Healthy df' = Some h
    /\ report Moderate df' = Some m
    /\ report Unhealthy df' = Some u
    /\ (length h + length m + length u = 3)%nat.
Proof.
  eexists.
  destruct (@reports_print_every_row trivial_estimators raw_table _ eq_refl)
    as (h & m & u & Hh & Hm & Hu & Hlen).
  { repeat constructor; by eexists. }
  exists h, m, u. split; [reflexivity|]. by split_and!.
Defined.

(** ** The score under a growing deviation *)

Lemma fltb_fleb (a b : fnum) : fltb a b = true -> fleb a b = true.
Proof.
  destruct a as [x| | |], b as [y| | |]; try done.
  intros Hlt%fltb_Fin. apply fleb_Fin_true. lra.
Qed.

Lemma nan_in_insert (acts : list fnum) (i j : nat) (a' : fnum) :
  j <> i -> acts !! j = Some NaN -> NaN ∈ <[i := a']> acts.
Proof.
  intros Hne Hj. apply list_elem_of_lookup. exists j.
  by rewrite list_lookup_insert_ne.
Qed.

(** C7, as the code has it.  A term does not grow when the absolute
    deviation of its density strictly increases, and is as close to 0 as
    wanted once the deviation is large enough; and when the deviation of
    one density strictly increases with the other six densities
    unchanged, the row's [health_score] does not grow: it stays NaN if
    one of the other densities is NaN and is otherwise at most what it
    was. *)
Theorem health_score_decreases_with_deviation :
  (forall a a' rec_value,
     fltb (deviation a rec_value) (deviation a' rec_value) = true ->
     fleb (score_term a' rec_value) (score_term a rec_value) = true)
  /\ (forall rec_value eps, 0 < eps ->
        exists D, forall a,
          fltb (Fin D) (deviation a rec_value) = true ->
          fleb (Fin 0) (score_term a rec_value) = true
          /\ fltb (score_term a rec_value) (Fin eps) = true)
  /\ (forall (r r' : row) acts i a a' rec_value,
        densities r = Some acts ->
        densities r' = Some (<[i := a']> acts) ->
        acts !! i = Some a ->
        (snd <$> recommended_density_per_1000cal) !! i = Some rec_value ->
        fltb (deviation a rec_value) (deviation a' rec_value) = true ->
        exists s s',
          compute_health_score r = Some s
          /\ compute_health_score r' = Some s'
          /\ fltb s s' = false
          /\ ((forall j b, j <> i -> acts !! j = Some b -> is_nan b = false)
              -> fleb s' s = true)).
Proof.
  split_and!.
  - intros a a' rv Hdev. by apply fltb_fleb, score_term_decreasing.
  - apply score_term_vanishes.
  - intros r r' acts i a a' rv Hd Hd' Ha Hrv Hdev.
    assert (is_nan a = false) as Hna.
    { rewrite !deviation_cases in Hdev.
      destruct a as [x| | |], a' as [x'| | |]; done. }
    destruct (nan_or_none acts) as [Hin|Hall].
    + apply list_elem_of_lookup in Hin as [j Hj].
      assert (j <> i) as Hne by (intros ->; rewrite Ha in Hj; by injection Hj as ->).
      exists NaN, NaN. split_and!.
      * apply (health_score_nan r acts Hd). by eapply list_elem_of_lookup_2.
      * apply (health_score_nan r' _ Hd'). by eapply nan_in_insert.
      * done.
      * intros Hothers. by specialize (Hothers j NaN Hne Hj).
    + destruct (score_sum_decreases acts i a a' rv Ha Hrv Hdev Hall)
        as (s & s' & Hs & Hs' & Hlt).
      exists (Fin s), (Fin s').
      rewrite !compute_health_score_sum, Hd, Hd'. simpl.
      rewrite Hs, Hs'. split_and!; try done.
      * apply fltb_Fin_false. lra.
      * intros _. apply fleb_Fin_true. lra.
Qed.

(** The score theorem at the perfect row, its sodium density moved 1000
    units away. *)
Lemma sodium_off_lowers_score :
  densities perfect_row = Some perfect_densities
  /\ densities (density_row (<[2%nat := Fin 2747.65]> perfect_densities))
     = Some (<[2%nat := Fin 2747.65]> perfect_densities)
  /\ exists s s',
       compute_health_score perfect_row = Some s
       /\ compute_health_score
            (density_row (<[2%nat := Fin 2747.65]> perfect_densities))
          = Some s'
       /\ fltb s s' = false /\ fleb s' s = true.
Proof.
  split; [reflexivity|]. split; [reflexivity|].
  destruct health_score_decreases_with_deviation as (_ & _ & Htotal).
  destruct (Htotal perfect_row
              (density_row (<[2%nat := Fin 2747.65]> perfect_densities))
              perfect_densities 2%nat (Fin 1747.65)
              (Fin 2747.65) 1747.65) as (s & s' & Hs & Hs' & Hnot & Hle);
    try reflexivity.
  - rewrite !deviation_cases. apply fltb_Fin_true.
    replace (1747.65 - 1747.65) with 0 by lra.
    replace (2747.65 - 1747.65) with 1000 by lra.
    rewrite Rabs_R0, Rabs_pos_eq; lra.
  - exists s, s'. split_and!; try done. apply Hle.
    intros j b _ Hj. apply list_elem_of_lookup_2 in Hj.
    unfold perfect_densities in Hj.
    apply list_elem_of_fmap in Hj as (x & -> & _). done.
Defined.

(** ** The report is ordered by the rounded score *)

Lemma assoc_num_elem (line : list (string * cell)) (c : string) (k : fnum) :
  assoc_num line c = Some k -> (c, Num k) ∈ line.
Proof.
  induction line as [|[c' v] line IH]; [done|]. simpl.
  destruct (String.eqb_spec c' c) as [->|Hne].
  - destruct v as [x|]; [|done]. intros [= ->]. left.
  - intros Hk. right. by apply IH.
Qed.

Lemma sort_values_desc_sorted (c : string)
    (df out : list (list (string * cell))) :
  sort_values_desc c df = Some out ->
  exists keys, mapM (fun r => assoc_num r c) out = Some keys
               /\ StronglySorted report_order keys.
Proof.
  intros (keyed & _ & Hkeys & ->)%sort_values_desc_keyed.
  destruct (fold_insert_desc keyed) as [Hperm Hsorted].
  exists (fst <$> fold_right insert_desc [] keyed). split; [|done].
  rewrite <- Hperm in Hkeys. revert Hkeys.
  generalize (fold_right insert_desc [] keyed). clear. intros l Hl.
  apply mapM_Some. induction Hl as [|p l Hp _ IH]; [constructor|].
  rewrite !fmap_cons. by constructor.
Qed.

Lemma report_keys_sorted (l : label) (df : frame)
    (out : list (list (string * cell))) :
  report l df = Some out ->
  exists keys,
    mapM (fun line => assoc_num line "Health Score") out = Some keys
    /\ StronglySorted report_order keys.
Proof.
  unfold report. intros Hrep.
  destruct (where_label l (round_frame df)) as [rows|]; [|done].
  simpl in Hrep.
  destruct (mapM (select columns_to_show) rows) as [shown|]; [|done].
  simpl in Hrep. by eapply sort_values_desc_sorted.
Qed.

Lemma round_cell_num (v : cell) (k : fnum) :
  round_cell v = Num k -> exists s, v = Num s /\ round5 s = k.
Proof. destruct v as [s|]; [|done]. intros [= <-]. by exists s. Qed.

Lemma report_keys_rounded (l : label) (df : frame)
    (out : list (list (string * cell))) :
  report l df = Some out ->
  Forall (fun line =>
            exists (r : row) s,
              r ∈ df /\ has_label l r = true
              /\ get_num r "Health Score" = Some s
              /\ assoc_num line "Health Score" = Some (round5 s))
         out.
Proof.
  intros Hrep.
  destruct (report_keys_sorted l df out Hrep) as (keys & Hkeys & _).
  apply mapM_Some in Hkeys.
  destruct (report_rows l df out Hrep) as (shown & Hs & Hperm).
  assert (Forall (fun line =>
                    exists r : row,
                      r ∈ df /\ has_label l r = true
                      /\ select columns_to_show (round_cell <$> r)
                         = Some line) out) as Hfrom.
  { rewrite Hperm. eapply Forall2_right_elem; [exact Hs|].
    intros rr line Hin Hsel. unfold round_frame in Hin.
    apply list_elem_of_In, in_map_iff in Hin as (r & <- & Hr).
    apply filter_In in Hr as [Hr Hlab].
    exists r. split_and!; [by apply list_elem_of_In|done|done]. }
  clear Hs Hperm Hrep. revert Hfrom.
  induction Hkeys as [|line k out keys Hk _ IH]; intros Hfrom;
    [constructor|].
  apply Forall_cons in Hfrom as [(r & Hr & Hlab & Hsel) Hfrom].
  constructor; [|by apply IH].
  destruct (select_line _ _ _ Hsel) as [_ Hvals].
  pose proof (Hvals _ _ (assoc_num_elem _ _ _ Hk)) as Hcell.
  rewrite lookup_fmap in Hcell.
  destruct (r !! "Health Score") as [v|] eqn:E; [|done].
  simpl in Hcell. injection Hcell as Hcell.
  destruct (round_cell_num v k Hcell) as (s & -> & <-).
  exists r, s. split_and!; try done. unfold get_num. by rewrite E.
Qed.

(** C10.  Whatever the table, the lines of a report are in
    non-increasing order of their ['Health Score'] key (NaN last), and
    the key of a line is the rounded score of the row it prints, not the
    exact one.  The exact scores 0.500001 and 0.500004 differ by less
    than 10^-5 and both round to 0.5: two rows with these scores are
    printed in the order in which the table holds them, whichever it
    is. *)
Theorem report_sorts_on_rounded_score :
  (forall (l : label) (df : frame) (out : list (list (string * cell))),
     report l df = Some out ->
     (exists keys,
        mapM (fun line => assoc_num line "Health Score") out = Some keys
        /\ StronglySorted report_order keys)
     /\ Forall (fun line =>
                  exists (r : row) s,
                    r ∈ df /\ has_label l r = true
                    /\ get_num r "Health Score" = Some s
                    /\ assoc_num line "Health Score" = Some (round5 s))
               out)
  /\ (0.500001 < 0.500004 < 0.500001 + 0.00001
      /\ round5 (Fin 0.500001) = Fin (50000 / 100000)
      /\ round5 (Fin 0.500004) = Fin (50000 / 100000))
  /\ report Healthy [meal "A" 0.500001; meal "B" 0.500004]
     = Some [printed "A" (Fin (50000 / 100000));
             printed "B" (Fin (50000 / 100000))]
  /\ report Healthy [meal "B" 0.500004; meal "A" 0.500001]
     = Some [printed "B" (Fin (50000 / 100000));
             printed "A" (Fin (50000 / 100000))].
Proof.
  assert (round5 (Fin 0.500001) = Fin (50000 / 100000)
          /\ round5 (Fin 0.500004) = Fin (50000 / 100000)) as [HA HB].
  { apply (round5_same_cell _ _ 50000); lra. }
  split_and!.
  - intros l df out Hrep. split.
    + by apply (report_keys_sorted l df).
    + by apply report_keys_rounded.
  - lra.
  - lra.
  - exact HA.
  - exact HB.
  - by apply report_two_meals.
  - by apply report_two_meals.
Qed.

(** The report theorem on a table of three rows with distinct scores:
    the lines come out by decreasing rounded score. *)
Lemma three_meals_sorted :
  exists out keys,
    report Healthy [meal "A" 0.25; meal "B" 0.75; meal "C" 0.5] = Some out
    /\ mapM (fun line => assoc_num line "Health Score") out = Some keys
    /\ StronglySorted report_order keys
    /\ length out = 3%nat.
Proof.
  assert (is_Some (report Healthy
                     [meal "A" 0.25; meal "B" 0.75; meal "C" 0.5]))
    as [out Hout].
  { unfold report.
    assert (where_label Healthy
              (round_frame [meal "A" 0.25; meal "B" 0.75; meal "C" 0.5])
            = Some (round_frame
                      [meal "A" 0.25; meal "B" 0.75; meal "C" 0.5]))
      as -> by reflexivity.
    cbn [mbind option_bind].
    assert (mapM (select columns_to_show)
                 (round_frame [meal "A" 0.25; meal "B" 0.75; meal "C" 0.5])
            = Some [printed "A" (round5 (Fin 0.25));
                    printed "B" (round5 (Fin 0.75));
                    printed "C" (round5 (Fin 0.5))]) as -> by reflexivity.
    cbn [mbind option_bind].
    apply (sort_values_desc_is_Some "Health Score").
    repeat constructor; by eexists. }
  destruct report_sorts_on_rounded_score as (Hsort & _).
  destruct (Hsort Healthy _ out Hout) as [(keys & Hkeys & Hsorted) _].
  exists out, keys. split_and!; try done.
  by rewrite (report_length _ _ _ Hout).
Defined.
